(** * wiki_crawler: a shallow embedding of [webcrawler.py]

    The crawler fetches Wikipedia pages, filters the anchors of each page
    ([Eintrag.getLinks]), registers pages in a networkx [DiGraph]
    ([Eintrag.addToGraph]) and recurses over the surviving links
    ([Eintrag.index]).  [Webcrawler] drives the crawl and runs the growth
    test ([testNodeIncrease]).

    Python values that the program uses as graph nodes are strings and
    [Eintrag] objects; exceptions are results; the graph, the console, the
    files and the network are an explicit state. *)

From Stdlib Require Import String Ascii List Bool Arith ZArith Lia DecimalString.
Import ListNotations.
Local Open Scope string_scope.
Local Open Scope list_scope.

(** ** Python strings *)

Module PyStr.

(** [needle in hay] *)
Fixpoint contains (needle hay : string) : bool :=
  if String.prefix needle hay then true
  else match hay with
       | EmptyString => false
       | String _ hay' => contains needle hay'
       end.

(** [s.split(sep)] for a one-character separator: every occurrence cuts,
    empty pieces are kept, and the result is never empty. *)
Fixpoint split (sep : ascii) (s : string) : list string :=
  match s with
  | EmptyString => [EmptyString]
  | String c s' =>
      if Ascii.eqb c sep then EmptyString :: split sep s'
      else match split sep s' with
           | [] => [String c EmptyString]
           | w :: ws => String c w :: ws
           end
  end.

(** [sep.join(l)] *)
Definition join (sep : string) (l : list string) : string := String.concat sep l.

(** [s.replace(old, new)] for a non-empty [old]: leftmost matches, not
    overlapping.  [skip] counts the characters of a match still to pass. *)
Fixpoint replace_from (old new s : string) (skip : nat) : string :=
  match s with
  | EmptyString => EmptyString
  | String c s' =>
      match skip with
      | S k => replace_from old new s' k
      | O => if String.prefix old s
             then (new ++ replace_from old new s' (String.length old - 1))%string
             else String c (replace_from old new s' 0)
      end
  end.

Definition replace (old new s : string) : string := replace_from old new s 0.

(** [str(n)] for a non-negative integer *)
Definition of_nat (n : nat) : string := NilEmpty.string_of_uint (Nat.to_uint n).

End PyStr.

(** ** Exceptions and results *)

Inductive exn : Type :=
| IndexError (msg : string)
| AttributeError (msg : string)
| FileNotFoundError (msg : string)
| RequestException (msg : string).

(** [str(e)] *)
Definition str_exn (e : exn) : string :=
  match e with
  | IndexError m | AttributeError m | FileNotFoundError m | RequestException m => m
  end.

Inductive res (A : Type) : Type :=
| Ret (a : A)
| Raise (e : exn).
Arguments Ret {A} a.
Arguments Raise {A} e.

(** [l.pop()]: the list without its last element, and that element. *)
Definition pop {A : Type} (l : list A) : res (list A * A) :=
  match rev l with
  | [] => Raise (IndexError "pop from empty list")
  | x :: _ => Ret (removelast l, x)
  end.

(** ** Eintrag.getLinks: the link filter *)

Module LinkFilter.

Definition exc : list string :=
  ["Wikipedia"; "Portal"; "Spezial"; "Kategorie"; "Datei"; "Hilfe"; "Diskussion"].

Definition origin : string := "http://de.wikipedia.org".

(** [x in l] on a list of strings *)
Definition mem (x : string) (l : list string) : bool := existsb (String.eqb x) l.

(** What one pass of the body of [for l in hrefs] does: go on with the
    next href, leave [getLinks] through the handler's [return []], or
    raise out of [getLinks]. *)
Inductive flow : Type :=
| Next (links : list string)
| Return_ (v : list string)
| Throw (e : exn).

(** The body of the first loop.  The three tests of the [if] are evaluated
    left to right and [str(l)[0]] is only reached when both substring tests
    pass; it is outside the [try].  [sp[0]], [sp[1]] and [tg[0]] are inside
    it, and the handler returns the empty list. *)
Definition filter_step (l : string) (links : list string) : flow :=
  if negb (PyStr.contains "https://" l) then
    if negb (PyStr.contains "http://" l) then
      match l with
      | EmptyString => Throw (IndexError "string index out of range")
      | String c _ =>
          if negb (Ascii.eqb c "#") then
            match PyStr.split "/" l with
            | [] => Throw (IndexError "pop from empty list")
            | _ :: sp =>
                match sp with
                | [] => Return_ []
                | sp0 :: sp' =>
                    if String.eqb sp0 "wiki" then
                      match sp' with
                      | [] => Return_ []
                      | sp1 :: _ =>
                          match PyStr.split ":" sp1 with
                          | [] => Return_ []
                          | tg0 :: _ =>
                              if negb (mem tg0 exc) then Next (links ++ [l])
                              else Next links
                          end
                      end
                    else Next links
                end
            end
          else Next links
      end
    else Next links
  else Next links.

Fixpoint filter_loop (hrefs : list string) (links : list string) : flow :=
  match hrefs with
  | [] => Next links
  | l :: hrefs' =>
      match filter_step l links with
      | Next links' => filter_loop hrefs' links'
      | Return_ v => Return_ v
      | Throw e => Throw e
      end
  end.

(** The second loop: build the absolute URL, keep it when it is new. *)
Fixpoint build_loop (links : list string) (result : list string) : list string :=
  match links with
  | [] => result
  | l :: links' =>
      let flink := (origin ++ l)%string in
      if negb (mem flink result) then build_loop links' (result ++ [flink])
      else build_loop links' result
  end.

Definition getLinks (hrefs : list string) : res (list string) :=
  match filter_loop hrefs [] with
  | Throw e => Raise e
  | Return_ v => Ret v
  | Next links =>
      match pop (build_loop links []) with
      | Raise e => Raise e
      | Ret (result, _) => Ret result
      end
  end.

(** Filtering completes when the first loop runs over every anchor and the
    final [result.pop()] finds an entry to remove: no exception, caught or
    not, cuts [getLinks] short. *)
Definition completes (hrefs : list string) : bool :=
  match filter_loop hrefs [] with
  | Next links =>
      match build_loop links [] with
      | [] => false
      | _ :: _ => true
      end
  | _ => false
  end.

End LinkFilter.

(** ** Graph nodes and the networkx DiGraph *)

(** The program hands two kinds of Python values to networkx as nodes:
    URL strings, and [Eintrag] objects (the class defines neither [__eq__]
    nor [__hash__], so an object is equal to itself only; [oid] is its
    identity). *)
Inductive pyval : Type :=
| Str (s : string)
| Obj (oid : nat).

Definition pyval_eqb (a b : pyval) : bool :=
  match a, b with
  | Str s, Str t => String.eqb s t
  | Obj i, Obj j => Nat.eqb i j
  | _, _ => false
  end.

Module DiGraph.

(** The nodes in insertion order, as the dict of networkx keeps them, and
    every edge once, in the order in which the edges were added.  networkx
    keeps the edges per source node and lists them grouped by source, so
    across sources the order of [edges] is that of the calls of
    [add_edge], not that of [G.edges()]: what is read off [edges] is which
    edges there are and how many. *)
Record t : Type := mk { nodes : list pyval; edges : list (pyval * pyval) }.

Definition empty : t := mk [] [].

Definition has_node (n : pyval) (g : t) : bool := existsb (pyval_eqb n) (nodes g).

Definition edge_eqb (u v : pyval) (e : pyval * pyval) : bool :=
  pyval_eqb u (fst e) && pyval_eqb v (snd e).

Definition has_edge (u v : pyval) (g : t) : bool := existsb (edge_eqb u v) (edges g).

Definition add_node (n : pyval) (g : t) : t :=
  if has_node n g then g else mk (nodes g ++ [n]) (edges g).

(** [add_edge] creates missing endpoints, [u] first. *)
Definition add_edge (u v : pyval) (g : t) : t :=
  let g' := add_node v (add_node u g) in
  if has_edge u v g' then g' else mk (nodes g') (edges g' ++ [(u, v)]).

Definition number_of_nodes (g : t) : nat := length (nodes g).

Definition number_of_edges (g : t) : nat := length (edges g).

Definition out_degree (n : pyval) (g : t) : nat :=
  length (filter (fun e => pyval_eqb n (fst e)) (edges g)).

Definition in_degree (n : pyval) (g : t) : nat :=
  length (filter (fun e => pyval_eqb n (snd e)) (edges g)).

(** [DiGraph.degree]: in-degree plus out-degree, a self-loop counts twice. *)
Definition degree (n : pyval) (g : t) : nat := in_degree n g + out_degree n g.

End DiGraph.

(** ** The world outside the program *)

(** What BeautifulSoup finds in a fetched document: the text of its
    [title] element when there is one, and the [href] of every anchor
    that has one, in document order. *)
Record page : Type := mkPage { title_tag : option string; hrefs : list string }.

(** [fetch k u] is the answer to the [k]-th request of the session, sent
    for [u] ([requests.get(u).text], parsed); [quote] is
    [requests.utils.quote(_, safe='')]. *)
Record World : Type := mkWorld {
  fetch : nat -> pyval -> res page;
  quote : string -> string
}.

Record state : Type := mkState {
  graph : DiGraph.t;              (* Webcrawler.graph *)
  requests : nat;                 (* requests sent so far *)
  objects : nat;                  (* Eintrag objects created so far *)
  console : list string;          (* one entry per print *)
  graph_xml : bool;               (* does the file "graph.xml" exist *)
  testNodeIncrease_txt : string   (* contents of "testNodeIncrease.txt" *)
}.

(** ** Statements: state passing with exceptions

    A raised exception leaves the state as it is at that moment: the
    graph is mutated in place. *)

Definition M (A : Type) : Type := state -> res A * state.

Definition ret {A : Type} (a : A) : M A := fun s => (Ret a, s).

Definition raise {A : Type} (e : exn) : M A := fun s => (Raise e, s).

Definition bind {A B : Type} (m : M A) (k : A -> M B) : M B :=
  fun s =>
    match m s with
    | (Ret a, s') => k a s'
    | (Raise e, s') => (Raise e, s')
    end.

(** [try: m  except Exception as e: h e] *)
Definition try_except {A : Type} (m : M A) (h : exn -> M A) : M A :=
  fun s =>
    match m s with
    | (Ret a, s') => (Ret a, s')
    | (Raise e, s') => h e s'
    end.

Definition lift {A : Type} (r : res A) : M A := fun s => (r, s).

Declare Scope py_scope.
Delimit Scope py_scope with py.
Notation "x <- m ;; k" := (bind m (fun x => k))
  (at level 61, m at next level, right associativity) : py_scope.
Notation "m ;; k" := (bind m (fun _ => k))
  (at level 61, right associativity) : py_scope.
Local Open Scope py_scope.

(** [for x in l: body x], the values of the body collected after [acc]. *)
Fixpoint for_each {A B : Type} (body : A -> M B) (l : list A) (acc : list B)
  : M (list B) :=
  match l with
  | [] => ret acc
  | x :: l' => y <- body x ;; for_each body l' (acc ++ [y])
  end.

(** [range(n)] *)
Definition range (n : Z) : list nat := seq 0 (Z.to_nat n).

Definition print (line : string) : M unit :=
  fun s => (Ret tt, mkState (graph s) (requests s) (objects s)
                            (console s ++ [line]) (graph_xml s)
                            (testNodeIncrease_txt s)).

Definition get_graph : M DiGraph.t := fun s => (Ret (graph s), s).

Definition update_graph (f : DiGraph.t -> DiGraph.t) : M unit :=
  fun s => (Ret tt, mkState (f (graph s)) (requests s) (objects s)
                            (console s) (graph_xml s) (testNodeIncrease_txt s)).

(** [Eintrag.__new__]: a fresh object *)
Definition new_object : M nat :=
  fun s => (Ret (objects s), mkState (graph s) (requests s) (S (objects s))
                                     (console s) (graph_xml s)
                                     (testNodeIncrease_txt s)).

(** [with open("testNodeIncrease.txt", "a") as file: file.write(text)] *)
Definition append_testNodeIncrease (text : string) : M unit :=
  fun s => (Ret tt, mkState (graph s) (requests s) (objects s) (console s)
                            (graph_xml s)
                            (testNodeIncrease_txt s ++ text)%string).

(** [os.remove("graph.xml")] *)
Definition os_remove_graph_xml : M unit :=
  fun s =>
    if graph_xml s
    then (Ret tt, mkState (graph s) (requests s) (objects s) (console s)
                          false (testNodeIncrease_txt s))
    else (Raise (FileNotFoundError
                   "[Errno 2] No such file or directory: 'graph.xml'"), s).

(** ** Eintrag *)

(** The attributes of an [Eintrag] that the program reads again; [text]
    is computed and never read, [links] and [leaves] live in [index]. *)
Record Eintrag : Type := mkEintrag {
  oid : nat;
  url : pyval;
  source : pyval;
  html : page;
  title : string
}.

(** What [index] returns: the entry itself below the last layer, else the
    list of what its children returned. *)
#[warnings="-register-all"]
Inductive tree : Type :=
| Leaf (e : Eintrag)
| Leaves (l : list tree).

Section Crawler.

Variable net : World.

(** [requests.get(u).text] *)
Definition http_get (u : pyval) : M page :=
  fun s => (fetch net (requests s) u,
            mkState (graph s) (S (requests s)) (objects s) (console s)
                    (graph_xml s) (testNodeIncrease_txt s)).

Definition getHTMLCode (u : pyval) : M page := http_get u.

(** [soup.find("title").text] *)
Definition find_title_text (p : page) : res string :=
  match title_tag p with
  | None => Raise (AttributeError "'NoneType' object has no attribute 'text'")
  | Some ft => Ret ft
  end.

Definition getTitle (p : page) : res string :=
  match find_title_text p with
  | Raise e => Raise e
  | Ret ft =>
      match pop (PyStr.split " " ft) with
      | Raise e => Raise e
      | Ret (t, _) =>
          match pop t with
          | Raise e => Raise e
          | Ret (t', _) => Ret (PyStr.join " " t')
          end
      end
  end.

Definition addToGraph (u src : pyval) : M unit :=
  update_graph (DiGraph.add_node u) ;;
  update_graph (DiGraph.add_edge src u).

(** [Eintrag(u, src, crawler)] *)
Definition Eintrag_init (u src : pyval) : M Eintrag :=
  self <- new_object ;;
  h <- getHTMLCode u ;;
  t <- lift (getTitle h) ;;
  print ("Reached " ++ t) ;;
  addToGraph u src ;;
  ret (mkEintrag self u src h t).

Definition getLinks (self : Eintrag) : res (list string) :=
  LinkFilter.getLinks (hrefs (html self)).

(** [index] by the number of layers still to open: [depth = layers + 1],
    so [depth = 0] is [layers < 0].  A child is built with the parent
    object, not the parent's URL, as its source. *)
Fixpoint index_at (depth : nat) (self : Eintrag) : M tree :=
  match depth with
  | O => ret (Leaf self)
  | S depth' =>
      links <- lift (getLinks self) ;;
      leaves <- for_each
                  (fun l => nextE <- Eintrag_init (Str l) (Obj (oid self)) ;;
                            index_at depth' nextE)
                  links [] ;;
      ret (Leaves leaves)
  end.

Definition index (self : Eintrag) (layers : Z) : M tree :=
  index_at (Z.to_nat (layers + 1)) self.

(** ** Webcrawler *)

Definition start (u : pyval) (layers : Z) : M tree :=
  startEntry <- Eintrag_init u u ;;
  print ("Start at: " ++ title startEntry) ;;
  r <- index startEntry layers ;;
  print "Finished" ;;
  ret r.

Definition random_page : string :=
  "https://de.wikipedia.org/wiki/Spezial:Zuf%C3%A4llige_Seite".

Definition getRandomURL : M string :=
  r <- http_get (Str random_page) ;;
  t <- lift (find_title_text r) ;;
  let newTitle := PyStr.replace " – Wikipedia" "" t in
  let urlText := quote net newTitle in
  ret ("http://de.wikipedia.org/wiki/" ++ urlText)%string.

Definition createGraph (layers : Z) : M unit :=
  try_except
    (u <- getRandomURL ;;
     start (Str u) layers ;;
     print "SUCCESSFULLY FINISHED RUN.")
    (fun e => print "AN ERROR HAS OCCURED." ;; print (str_exn e)).

Definition resetGraph : M unit :=
  try_except
    (os_remove_graph_xml ;; print "Graph reset successful.")
    (fun e => print "Graph reset failed." ;; print (str_exn e)).

Definition newline : string := String (ascii_of_nat 10) EmptyString.

(** The nodes of total degree 1, in the order of [graph.nodes()]. *)
Definition endList (g : DiGraph.t) : list pyval :=
  filter (fun n => Nat.eqb (DiGraph.degree n g) 1) (DiGraph.nodes g).

(** The body of [for c in range(layers)] in run [i]. *)
Definition expand (i c : nat) : M unit :=
  g <- get_graph ;;
  for_each (fun e => start e 0) (endList g) [] ;;
  g' <- get_graph ;;
  let string := (PyStr.of_nat i ++ "." ++ PyStr.of_nat c ++ ": "
                 ++ PyStr.of_nat (DiGraph.number_of_nodes g'))%string in
  print string ;;
  append_testNodeIncrease string.

(** The body of [for i in range(runs)]. *)
Definition run (layers : Z) (i : nat) : M unit :=
  u <- getRandomURL ;;
  start (Str u) 0 ;;
  g <- get_graph ;;
  let string := (PyStr.of_nat i ++ ".0: "
                 ++ PyStr.of_nat (DiGraph.number_of_nodes g) ++ newline)%string in
  print string ;;
  append_testNodeIncrease string ;;
  for_each (expand i) (range layers) [] ;;
  ret tt.

Definition testNodeIncrease (runs layers : Z) : M unit :=
  resetGraph ;;
  for_each (run layers) (range runs) [] ;;
  ret tt.

End Crawler.

(** ** The link filter as the specification words it

    Written from the rules of the specification, not from the code, to be
    compared with [LinkFilter.getLinks].  Rule 3 is there in two readings:
    [path_segments] sets the first segment of the path aside whatever it
    is, [worded_path_segments] only when it is empty, which is the rule to
    the letter. *)

Module LinkFilterSpec.

Definition excluded_namespaces : list string :=
  ["Wikipedia"; "Portal"; "Spezial"; "Kategorie"; "Datei"; "Hilfe"; "Diskussion"].


Definition starts_with_fragment (h : string) : bool :=
  match h with
  | String c _ => Ascii.eqb c "#"
  | EmptyString => false
  end.

(** The part of a segment in front of its first colon. *)
Fixpoint before_colon (seg : string) : string :=
  match seg with
  | EmptyString => EmptyString
  | String c seg' => if Ascii.eqb c ":" then EmptyString
                     else String c (before_colon seg')
  end.

Definition is_excluded (name : string) : bool :=
  existsb (String.eqb name) excluded_namespaces.

(** The segments of the path, the leading one set aside, empty or not. *)
Definition path_segments (h : string) : list string := tl (PyStr.split "/" h).

Definition keep (h : string) : bool :=
  negb (PyStr.contains "http://" h)
  && negb (PyStr.contains "https://" h)
  && negb (starts_with_fragment h)
  && match path_segments h with
     | marker :: article :: _ =>
         String.eqb marker "wiki" && negb (is_excluded (before_colon article))
     | _ => false
     end.

(** First occurrence kept, later ones dropped. *)
Fixpoint dedup (l : list string) : list string :=
  match l with
  | [] => []
  | x :: l' => x :: filter (fun y => negb (String.eqb y x)) (dedup l')
  end.





End LinkFilterSpec.

(** ** Vocabulary of the properties *)

Definition list_prefix {A : Type} (a b : list A) : Prop := exists c, b = a ++ c.

Definition string_prefix (a b : string) : Prop := exists c, b = (a ++ c)%string.

(** [preserves R m]: the state after [m], returned or raised, is related
    by [R] to the state before. *)
Definition preserves (R : state -> state -> Prop) {A : Type} (m : M A) : Prop :=
  forall s, R s (snd (m s)).

(** A relation on states that looks at the graph ([Rg]) and at the log
    file ([Rt]) only. *)
Definition rel (Rg : DiGraph.t -> DiGraph.t -> Prop) (Rt : string -> string -> Prop)
           (s s' : state) : Prop :=
  Rg (graph s) (graph s') /\ Rt (testNodeIncrease_txt s) (testNodeIncrease_txt s').

Definition preorders (Rg : DiGraph.t -> DiGraph.t -> Prop)
           (Rt : string -> string -> Prop) : Prop :=
  (forall g, Rg g g) /\ (forall a b c, Rg a b -> Rg b c -> Rg a c)
  /\ (forall t, Rt t t) /\ (forall a b c, Rt a b -> Rt b c -> Rt a c).

(** [Rg] allows what [addToGraph] does for an entry [u] with source [src]. *)
Definition admits (Rg : DiGraph.t -> DiGraph.t -> Prop) (src u : pyval) : Prop :=
  forall g, Rg g (DiGraph.add_edge src u (DiGraph.add_node u g)).

(** [g'] is [g] with nodes and edges added at the end. *)
Definition extends (g g' : DiGraph.t) : Prop :=
  list_prefix (DiGraph.nodes g) (DiGraph.nodes g')
  /\ list_prefix (DiGraph.edges g) (DiGraph.edges g').

(** [g'] has the nodes of [g] in front of its own, and every edge of
    [g]. *)
Definition retains (g g' : DiGraph.t) : Prop :=
  list_prefix (DiGraph.nodes g) (DiGraph.nodes g')
  /\ forall e, In e (DiGraph.edges g) -> In e (DiGraph.edges g').

(** The graph and the log file of [s'] are those of [s] with entries added
    at the end. *)
Definition grows : state -> state -> Prop := rel extends string_prefix.

(** The log file is the same. *)
Definition same_log : state -> state -> Prop :=
  rel (fun _ _ => True) (fun t t' : string => t' = t).

(** Every edge of [g'] is an edge of [g] or satisfies [P]. *)
Definition edges_from (P : pyval * pyval -> Prop) (g g' : DiGraph.t) : Prop :=
  forall e, In e (DiGraph.edges g') -> In e (DiGraph.edges g) \/ P e.

(** The edges a crawl from [u] registers: the seed with itself as source,
    and a child URL with its parent object as source. *)
Definition crawl_edge (u : pyval) (e : pyval * pyval) : Prop :=
  e = (u, u) \/ exists i x, e = (Obj i, Str x).

(** The state after [Eintrag(u, src, crawler)] for a page that was
    fetched and whose title is [t]. *)
Definition registered (u src : pyval) (t : string) (s : state) : state :=
  mkState (DiGraph.add_edge src u (DiGraph.add_node u (graph s)))
          (S (requests s)) (S (objects s))
          (console s ++ [("Reached " ++ t)%string])
          (graph_xml s) (testNodeIncrease_txt s).

(** Building the subtree of one link of [self], as the body of the loop of
    [index] does. *)
Definition child (net : World) (depth : nat) (self : Eintrag) (l : string) : M tree :=
  nextE <- Eintrag_init net (Str l) (Obj (oid self)) ;; index_at net depth nextE.

(** The state after [Eintrag(u, src, crawler)] when the request fails: an
    object was created and a request sent, nothing else happened. *)
Definition failed_request (s : state) : state :=
  mkState (graph s) (S (requests s)) (S (objects s)) (console s)
          (graph_xml s) (testNodeIncrease_txt s).


(** One record of the growth log. *)
Definition record (run iteration count : nat) : string :=
  (PyStr.of_nat run ++ "." ++ PyStr.of_nat iteration ++ ": " ++ PyStr.of_nat count)%string.

(** The state after the first record of run [i] of the growth test is
    written, [s2] being the state after the seed crawl. *)
Definition seeded (i : nat) (s2 : state) : state :=
  let string := (PyStr.of_nat i ++ ".0: "
                 ++ PyStr.of_nat (DiGraph.number_of_nodes (graph s2)) ++ newline)%string in
  snd (append_testNodeIncrease string (snd (print string s2))).

(** ** Small sites to run the crawler on *)

Module Examples.

Definition wiki (path : string) : string := ("http://de.wikipedia.org" ++ path)%string.

Definition article (name : string) (anchors : list string) : page :=
  mkPage (Some (name ++ " – Wikipedia")%string) anchors.

Fixpoint lookup (u : string) (pages : list (string * page)) : res page :=
  match pages with
  | [] => Raise (RequestException "connection failed")
  | (v, p) :: pages' => if String.eqb u v then Ret p else lookup u pages'
  end.

(** A site answers with the page it has for a URL string, the same at
    every request, and fails for anything else; the titles need no
    quoting. *)
Definition site (pages : list (string * page)) : World :=
  mkWorld (fun _ u => match u with
                      | Str s => lookup s pages
                      | Obj _ => Raise (RequestException "connection failed")
                      end)
          (fun t => t).

Definition seed : string := wiki "/wiki/Seed".

(** A new session: empty graph, no file, empty log. *)
Definition fresh : state := mkState DiGraph.empty 0 0 [] false "".

(** A session whose graph has a node from an earlier crawl, saved to
    [graph.xml]. *)
Definition visited : state :=
  mkState (DiGraph.mk [Str (wiki "/wiki/Alt")] []) 0 0 [] true "".

Definition one_link_page : page :=
  article "Seed" ["https://www.wikidata.org/wiki/Q64";
                  "https://commons.wikimedia.org/wiki/Berlin";
                  "#cite"; "/wiki/Berlin"].

Definition one_link : World := site [(seed, one_link_page)].

Definition empty_href_page : page := article "Seed" ["/wiki/A"; ""; "/wiki/B"].

Definition empty_href : World := site [(seed, empty_href_page)].

Definition talk_only_page : page :=
  article "Seed" ["/wiki/Diskussion:Seed"; "/wiki/Spezial:Suche"].

Definition two_links : World :=
  site [(seed, article "Seed" ["/wiki/A"; "/wiki/B"]);
        (wiki "/wiki/A", article "A" ["/wiki/Seed"])].

(** The page of D cannot be fetched. *)
Definition broken : World :=
  site [(random_page, article "Seed" []);
        (seed, article "Seed" ["/wiki/A"; "/wiki/B"; "/wiki/C"]);
        (wiki "/wiki/A", article "A" ["/wiki/D"; "/wiki/E"]);
        (wiki "/wiki/B", article "B" ["/wiki/A"; "/wiki/E"])].

Definition growth : World :=
  site [(random_page, article "Seed" []);
        (seed, article "Seed" ["/wiki/A"; "/wiki/B"; "/wiki/C"]);
        (wiki "/wiki/A", article "A" ["/wiki/Seed"; "/wiki/D"]);
        (wiki "/wiki/B", article "B" ["/wiki/A"; "/wiki/E"])].

End Examples.

(** ** Vocabulary of the further properties *)

(** Anchors the first loop of [getLinks] passes over at once: absolute
    links and fragment links. *)
Definition skipped (l : string) : bool :=
  PyStr.contains "https://" l || PyStr.contains "http://" l
  || LinkFilterSpec.starts_with_fragment l.

(** Does the character occur in the string. *)
Fixpoint occurs (c : ascii) (s : string) : bool :=
  match s with
  | EmptyString => false
  | String d s' => Ascii.eqb d c || occurs c s'
  end.

(** A graph as networkx keeps it: no node twice, no edge twice, and the
    two ends of every edge among the nodes. *)
Definition well_formed (g : DiGraph.t) : Prop :=
  NoDup (DiGraph.nodes g) /\ NoDup (DiGraph.edges g)
  /\ forall a b, In (a, b) (DiGraph.edges g) ->
                 In a (DiGraph.nodes g) /\ In b (DiGraph.nodes g).

(** [e] runs from the object of the entry [self] to one of the URLs that
    [getLinks] returns for the page of [self]. *)
Definition link_edge (self : Eintrag) (e : pyval * pyval) : Prop :=
  exists links x,
    getLinks self = Ret links /\ In x links /\ e = (Obj (oid self), Str x).

(** [built_below net depth self s c sc]: opening [depth] layers below
    [self] from state [s], the crawl builds the entry [c], for a link of
    [self] or of an entry built below [self], and [sc] is the state in
    which the constructor of [c] is called: the subtrees of the links
    before it were built and returned. *)
Inductive built_below (net : World)
  : nat -> Eintrag -> state -> Eintrag -> state -> Prop :=
| built_child (depth : nat) (self c : Eintrag) (pre post : list string)
              (l : string) (acc : list tree) (s s1 s2 : state) :
    getLinks self = Ret (pre ++ l :: post) ->
    for_each (child net depth self) pre [] s = (Ret acc, s1) ->
    Eintrag_init net (Str l) (Obj (oid self)) s1 = (Ret c, s2) ->
    built_below net (S depth) self s c s1
| built_deeper (depth : nat) (self c d : Eintrag) (pre post : list string)
               (l : string) (acc : list tree) (s s1 s2 sd : state) :
    getLinks self = Ret (pre ++ l :: post) ->
    for_each (child net depth self) pre [] s = (Ret acc, s1) ->
    Eintrag_init net (Str l) (Obj (oid self)) s1 = (Ret c, s2) ->
    built_below net depth c s2 d sd ->
    built_below net (S depth) self s d sd.

(** [self] is an entry of the crawl that [start u layers] runs from [s],
    built by the constructor called in state [sd]: the seed entry, built
    in [s], or an entry built below it. *)
Definition crawl_entry (net : World) (u : pyval) (layers : Z) (s : state)
           (self : Eintrag) (sd : state) : Prop :=
  exists seedE s1,
    Eintrag_init net u u s = (Ret seedE, s1)
    /\ ((self = seedE /\ sd = s)
        \/ built_below net (Z.to_nat (layers + 1)) seedE
                       (snd (print ("Start at: " ++ title seedE) s1)) self sd).

(** [e] is a link edge of [self], or of an entry built below [self] when
    [depth] layers are opened from [s]. *)
Definition subtree_edge (net : World) (depth : nat) (self : Eintrag) (s : state)
           (e : pyval * pyval) : Prop :=
  link_edge self e
  \/ exists d sd, built_below net depth self s d sd /\ link_edge d e.

(** The graph after the entries for [links] are registered one after the
    other with [src] as their source. *)
Definition register_links (src : pyval) (links : list string) (g : DiGraph.t)
  : DiGraph.t :=
  fold_left (fun g l => DiGraph.add_edge src (Str l) (DiGraph.add_node (Str l) g))
            links g.

(** [children] are the entries for [links], one per link and in their
    order: the entry of a link is the object numbered from [o] on, its
    page the answer to the request numbered from [k] on, sent for the
    link, and its source is [src]. *)
Fixpoint built_for (net : World) (k o : nat) (src : pyval) (links : list string)
         (children : list Eintrag) : Prop :=
  match links, children with
  | [], [] => True
  | l :: links', c :: children' =>
      (exists p t, fetch net k (Str l) = Ret p /\ getTitle p = Ret t
                   /\ c = mkEintrag o (Str l) src p t)
      /\ built_for net (S k) (S o) src links' children'
  | _, _ => False
  end.

(** The records of the expansions of run [i], the first numbered [c], one
    per count and nothing between them. *)
Fixpoint expansion_records (i c : nat) (counts : list nat) : string :=
  match counts with
  | [] => ""
  | m :: counts' => (record i c m ++ expansion_records i (S c) counts')%string
  end.

(** The records of run [i]: the count after the seed crawl, labelled
    iteration 0 and ended by a newline, then the expansions. *)
Definition run_records (i : nat) (r : nat * list nat) : string :=
  (record i 0 (fst r) ++ newline ++ expansion_records i 0 (snd r))%string.

(** The records of the runs numbered from [i]. *)
Fixpoint test_records (i : nat) (runs : list (nat * list nat)) : string :=
  match runs with
  | [] => ""
  | r :: runs' => (run_records i r ++ test_records (S i) runs')%string
  end.

(** Each number is at least the one before it, the first at least [lo]. *)
Fixpoint ascending (lo : nat) (l : list nat) : Prop :=
  match l with
  | [] => True
  | x :: l' => lo <= x /\ ascending x l'
  end.

(** All the counts of a run, in the order they are written. *)
Definition counts_of (r : nat * list nat) : list nat := fst r :: snd r.

(** Does [old] match [s] at one of its first [n] positions. *)
Fixpoint matches_before (old s : string) (n : nat) : bool :=
  match n with
  | O => false
  | S n' => String.prefix old s
            || match s with
               | EmptyString => false
               | String _ s' => matches_before old s' n'
               end
  end.

(** Every [Eintrag] object among the nodes was created earlier in the
    session: an object yet to be created is no node. *)
Definition objects_fresh (s : state) : Prop :=
  forall i, In (Obj i) (DiGraph.nodes (graph s)) -> i < objects s.

(** From a state with [n0] objects or more in which the object nodes are
    older than the counter, the counter does not go back and the object
    nodes stay older than it. *)
Definition stays_fresh (n0 : nat) (s s' : state) : Prop :=
  n0 <= objects s -> objects_fresh s ->
  objects s <= objects s' /\ objects_fresh s'.

(** A seed the crawler can be started at: a URL, or an object that
    exists. *)
Definition seed_exists (u : pyval) (n : nat) : Prop :=
  match u with
  | Str _ => True
  | Obj j => j < n
  end.

(** ** More sites *)

Module Cases.

(** Every request, for whatever, is answered with the same page. *)
Definition uniform : World :=
  mkWorld (fun _ _ => Ret (Examples.article "Seite" ["/wiki/A"; "/wiki/B"]))
          (fun t => t).

(** The random page leads to a page whose anchors are all filtered out. *)
Definition talk_only : World :=
  Examples.site [(random_page, Examples.article "Seed" []);
                 (Examples.seed, Examples.talk_only_page)].

Definition mixed : list string :=
  ["/wiki/A"; "https://x.org/wiki/Q"; "#cite"; "/wiki/Spezial:X"; "/w/index.php";
   "/wiki/B"; "/wiki/A"; "/wiki/C"].



End Cases.

(** * Properties *)

(** ** The link filter against its specification *)

Module LinkFilterFacts.
Import LinkFilter.

Lemma split_head_before_colon (seg tg0 : string) (tg : list string) :
  PyStr.split ":" seg = tg0 :: tg -> tg0 = LinkFilterSpec.before_colon seg.
Proof.
  revert tg0 tg. induction seg as [|c seg IH]; intros tg0 tg H; simpl in *.
  - now inversion H.
  - destruct (Ascii.eqb c ":").
    + now inversion H.
    + destruct (PyStr.split ":" seg) as [|w ws] eqn:E.
      * inversion H; subst.
        destruct seg; simpl in E; [discriminate|].
        destruct (Ascii.eqb a ":"); [discriminate|].
        destruct (PyStr.split ":" seg); discriminate.
      * inversion H; subst. f_equal. eapply IH. reflexivity.
Qed.

Lemma split_not_nil (sep : ascii) (s : string) : PyStr.split sep s <> [].
Proof.
  destruct s as [|c s]; simpl; [discriminate|].
  destruct (Ascii.eqb c sep); [discriminate|].
  destruct (PyStr.split sep s); discriminate.
Qed.

(** One pass of the first loop that goes on has appended the href exactly
    when the specification keeps it. *)
Lemma filter_step_next (l : string) (links links' : list string) :
  filter_step l links = Next links' ->
  links' = if LinkFilterSpec.keep l then links ++ [l] else links.
Proof.
  unfold filter_step, LinkFilterSpec.keep, LinkFilterSpec.path_segments.
  destruct (PyStr.contains "https://" l); simpl.
  { rewrite andb_false_r. simpl. intros H. injection H as ->. reflexivity. }
  destruct (PyStr.contains "http://" l); simpl.
  { intros H; injection H as ->; reflexivity. }
  destruct l as [|c l0]; [discriminate|].
  cbn [LinkFilterSpec.starts_with_fragment].
  destruct (Ascii.eqb c "#"); simpl negb; cbv iota.
  { intros H; injection H as ->; reflexivity. }
  destruct (PyStr.split "/" (String c l0)) as [|s0 sp]; [discriminate|].
  cbn [tl]. destruct sp as [|sp0 sp']; [discriminate|].
  destruct (String.eqb sp0 "wiki"); simpl.
  2:{ intros H; injection H as ->. now destruct sp'. }
  destruct sp' as [|sp1 sp'']; [discriminate|].
  destruct (PyStr.split ":" sp1) as [|tg0 tg] eqn:E; [discriminate|].
  apply split_head_before_colon in E. subst tg0.
  unfold LinkFilterSpec.is_excluded, mem, exc, LinkFilterSpec.excluded_namespaces.
  cbn [existsb]. destruct (negb _); intros H; injection H as ->; reflexivity.
Qed.

Lemma filter_loop_next (hrefs links links' : list string) :
  filter_loop hrefs links = Next links' ->
  links' = links ++ filter LinkFilterSpec.keep hrefs.
Proof.
  revert links. induction hrefs as [|l hrefs IH]; intros links H; simpl in *.
  - inversion H. now rewrite app_nil_r.
  - destruct (filter_step l links) as [l1| |] eqn:E; try discriminate.
    apply filter_step_next in E. apply IH in H. subst.
    destruct (LinkFilterSpec.keep l); [now rewrite <- app_assoc | reflexivity].
Qed.

Lemma mem_app (x : string) (a b : list string) :
  mem x (a ++ b) = mem x a || mem x b.
Proof. unfold mem. apply existsb_app. Qed.

Lemma filter_filter {A} (p q : A -> bool) (l : list A) :
  filter p (filter q l) = filter (fun x => q x && p x) l.
Proof.
  induction l as [|x l IH]; simpl; [reflexivity|].
  destruct (q x); simpl; [destruct (p x)|]; now rewrite IH.
Qed.

Lemma build_loop_dedup (links result : list string) :
  build_loop links result =
  result ++ filter (fun y => negb (mem y result))
                   (LinkFilterSpec.dedup (map (String.append origin) links)).
Proof.
  revert result. induction links as [|l links IH]; intros result.
  - simpl. now rewrite app_nil_r.
  - cbn [build_loop map LinkFilterSpec.dedup].
    change (String.append origin l) with (origin ++ l)%string.
    generalize (origin ++ l)%string; intros flink.
    cbn [filter]. rewrite filter_filter.
    destruct (mem flink result) eqn:E; cbn [negb]; rewrite IH.
    + f_equal. apply filter_ext. intros y.
      destruct (String.eqb_spec y flink) as [->|]; simpl; [now rewrite E | reflexivity].
    + rewrite <- app_assoc. simpl. do 2 f_equal.
      apply filter_ext. intros y. rewrite mem_app. simpl.
      rewrite orb_false_r, negb_orb. apply andb_comm.
Qed.

Lemma pop_removelast {A} (l : list A) :
  l <> [] -> exists x, pop l = Ret (removelast l, x).
Proof.
  intros H. unfold pop. destruct (rev l) as [|x r] eqn:E.
  - apply (f_equal (@rev A)) in E. rewrite rev_involutive in E. now elim H.
  - now exists x.
Qed.

Lemma pop_nil {A} : pop (@nil A) = Raise (IndexError "pop from empty list").
Proof. reflexivity. Qed.

(** The three ways through the body of the first loop that go on to the
    next href. *)
Lemma filter_step_https (l : string) (links : list string) :
  PyStr.contains "https://" l = true -> filter_step l links = Next links.
Proof. intros H. unfold filter_step. now rewrite H. Qed.

Lemma filter_step_http (l : string) (links : list string) :
  PyStr.contains "http://" l = true -> filter_step l links = Next links.
Proof.
  intros H. unfold filter_step. rewrite H.
  now destruct (PyStr.contains "https://" l).
Qed.

Lemma filter_step_fragment (l : string) (links : list string) :
  LinkFilterSpec.starts_with_fragment l = true -> filter_step l links = Next links.
Proof.
  intros H. unfold filter_step.
  destruct (PyStr.contains "https://" l); [reflexivity|].
  destruct (PyStr.contains "http://" l); [reflexivity|].
  destruct l as [|c l]; [discriminate|]. simpl in H. now rewrite H.
Qed.

Lemma filter_step_keep (l : string) (links : list string) :
  LinkFilterSpec.keep l = true -> filter_step l links = Next (links ++ [l]).
Proof.
  unfold LinkFilterSpec.keep, LinkFilterSpec.path_segments, filter_step.
  intros H. repeat (apply andb_prop in H; destruct H as [H ?]).
  apply negb_true_iff in H. rewrite H.
  match goal with K : negb (PyStr.contains "https://" l) = true |- _ =>
    apply negb_true_iff in K; rewrite K end.
  cbn [negb]. destruct l as [|c l0]; [discriminate|].
  match goal with K : negb (LinkFilterSpec.starts_with_fragment _) = true |- _ =>
    cbn [LinkFilterSpec.starts_with_fragment] in K; rewrite K end.
  destruct (PyStr.split "/" (String c l0)) as [|s0 sp]; [discriminate|].
  cbn [tl] in *. destruct sp as [|sp0 [|sp1 sp'']]; try discriminate.
  match goal with K : _ && _ = true |- _ =>
    apply andb_prop in K; destruct K as [K1 K2]; rewrite K1 end.
  destruct (PyStr.split ":" sp1) as [|tg0 tg] eqn:E; [now apply split_not_nil in E|].
  apply split_head_before_colon in E. subst tg0.
  unfold mem, exc. unfold LinkFilterSpec.is_excluded,
    LinkFilterSpec.excluded_namespaces in K2. now rewrite K2.
Qed.

(** An empty href raises out of the loop. *)
Lemma filter_step_empty (links : list string) :
  filter_step "" links = Throw (IndexError "string index out of range").
Proof. reflexivity. Qed.

Lemma filter_loop_app (pre post links links' : list string) :
  filter_loop pre links = Next links' ->
  filter_loop (pre ++ post) links = filter_loop post links'.
Proof.
  revert links. induction pre as [|l pre IH]; intros links H; simpl in *.
  - now injection H as ->.
  - destruct (filter_step l links); try discriminate. now apply IH.
Qed.

(** The handler returns the empty list, whatever was collected. *)
Lemma filter_step_return (l : string) (links v : list string) :
  filter_step l links = Return_ v -> v = [].
Proof.
  unfold filter_step.
  destruct (PyStr.contains "https://" l); [discriminate|].
  destruct (PyStr.contains "http://" l); [discriminate|]. cbn [negb].
  destruct l as [|c l0]; [discriminate|].
  destruct (Ascii.eqb c "#"); [discriminate|]. cbn [negb].
  destruct (PyStr.split "/" (String c l0)) as [|s0 [|sp0 sp']]; try discriminate.
  - now intros H; injection H as <-.
  - destruct (String.eqb sp0 "wiki"); [|discriminate].
    destruct sp' as [|sp1 sp'']; [now intros H; injection H as <-|].
    destruct (PyStr.split ":" sp1) as [|tg0 tg]; [now intros H; injection H as <-|].
    destruct (negb (mem tg0 exc)); discriminate.
Qed.

Lemma filter_loop_return (anchors links v : list string) :
  filter_loop anchors links = Return_ v -> v = [].
Proof.
  revert links. induction anchors as [|l anchors IH]; intros links; simpl.
  - discriminate.
  - destruct (filter_step l links) as [links'|v'|e] eqn:E.
    + apply IH.
    + intros H. injection H as <-. now apply filter_step_return in E.
    + discriminate.
Qed.

(** An anchor list on which filtering does not complete: [getLinks] gives
    the empty list, through the handler, or raises. *)
Lemma getLinks_cut_short (anchors : list string) :
  completes anchors = false ->
  getLinks anchors = Ret [] \/ exists e, getLinks anchors = Raise e.
Proof.
  unfold completes, getLinks.
  destruct (filter_loop anchors []) as [links|v|e] eqn:E.
  - destruct (build_loop links []); [|discriminate]. intros _. right. now eexists.
  - intros _. left. now rewrite (filter_loop_return _ _ _ E).
  - intros _. right. now eexists.
Qed.

(** A path without its second or third segment, met by the first loop,
    ends [getLinks] with the empty list. *)
Lemma getLinks_malformed_entry (pre post links : list string) (l : string) :
  filter_loop pre [] = Next links ->
  filter_step l links = Return_ [] ->
  getLinks (pre ++ l :: post) = Ret [].
Proof.
  intros Hpre Hl. unfold getLinks.
  rewrite (filter_loop_app pre (l :: post) [] links Hpre). simpl. now rewrite Hl.
Qed.

End LinkFilterFacts.

(** ** Reasoning about statements *)

Lemma bind_ret_inv {A B} (m : M A) (k : A -> M B) (s s' : state) (b : B) :
  bind m k s = (Ret b, s') ->
  exists a s1, m s = (Ret a, s1) /\ k a s1 = (Ret b, s').
Proof.
  unfold bind. destruct (m s) as [[a|e] s1] eqn:E; intros H; [eauto | discriminate].
Qed.

Lemma bind_raise_inv {A B} (m : M A) (k : A -> M B) (s s' : state) (e : exn) :
  bind m k s = (Raise e, s') ->
  m s = (Raise e, s') \/ exists a s1, m s = (Ret a, s1) /\ k a s1 = (Raise e, s').
Proof.
  unfold bind. destruct (m s) as [[a|e'] s1] eqn:E; intros H.
  - right. eauto.
  - left. now injection H as -> ->.
Qed.

Lemma bind_ret_eq {A B} (m : M A) (k : A -> M B) (s s1 : state) (a : A) :
  m s = (Ret a, s1) -> bind m k s = k a s1.
Proof. intros H. unfold bind. now rewrite H. Qed.

Lemma bind_raise_eq {A B} (m : M A) (k : A -> M B) (s s1 : state) (e : exn) :
  m s = (Raise e, s1) -> bind m k s = (Raise e, s1).
Proof. intros H. unfold bind. now rewrite H. Qed.


Section Preserve.

(** A relation between the state before and the state after that every
    statement of a block keeps is kept by the block, whether it returns or
    raises. *)
Variable R : state -> state -> Prop.
Hypothesis R_refl : forall s, R s s.
Hypothesis R_trans : forall a b c, R a b -> R b c -> R a c.

Lemma preserves_ret {A} (a : A) : preserves R (ret a).
Proof using R_refl. intros s. apply R_refl. Qed.

Lemma preserves_lift {A} (r : res A) : preserves R (lift r).
Proof using R_refl. intros s. apply R_refl. Qed.

Lemma preserves_bind {A B} (m : M A) (k : A -> M B) :
  preserves R m -> (forall a, preserves R (k a)) -> preserves R (bind m k).
Proof using R_trans.
  intros Hm Hk s. unfold bind. specialize (Hm s).
  destruct (m s) as [[a|e] s1]; simpl in *; [|assumption].
  eapply R_trans; [exact Hm | apply Hk].
Qed.

Lemma preserves_try_except {A} (m : M A) (h : exn -> M A) :
  preserves R m -> (forall e, preserves R (h e)) -> preserves R (try_except m h).
Proof using R_trans.
  intros Hm Hh s. unfold try_except. specialize (Hm s).
  destruct (m s) as [[a|e] s1]; simpl in *; [assumption|].
  eapply R_trans; [exact Hm | apply Hh].
Qed.

Lemma preserves_for_each {A B} (body : A -> M B) (l : list A) (acc : list B) :
  (forall x, preserves R (body x)) -> preserves R (for_each body l acc).
Proof using R_refl R_trans.
  intros Hb. revert acc. induction l as [|x l IH]; intros acc; simpl.
  - apply preserves_ret.
  - apply preserves_bind; [apply Hb | intros y; apply IH].
Qed.

End Preserve.

Lemma list_prefix_refl {A} (a : list A) : list_prefix a a.
Proof. exists []. now rewrite app_nil_r. Qed.

Lemma list_prefix_trans {A} (a b c : list A) :
  list_prefix a b -> list_prefix b c -> list_prefix a c.
Proof. intros [x ->] [y ->]. exists (x ++ y). now rewrite app_assoc. Qed.

Lemma list_prefix_length {A} (a b : list A) : list_prefix a b -> length a <= length b.
Proof. intros [c ->]. rewrite length_app. lia. Qed.

Lemma list_prefix_In {A} (a b : list A) (x : A) : list_prefix a b -> In x a -> In x b.
Proof. intros [c ->] H. apply in_or_app. now left. Qed.

Lemma string_app_nil_r (a : string) : (a ++ "")%string = a.
Proof. induction a as [|c a IH]; simpl; [reflexivity | now rewrite IH]. Qed.

Lemma string_app_assoc (a b c : string) : ((a ++ b) ++ c)%string = (a ++ (b ++ c))%string.
Proof. induction a as [|x a IH]; simpl; [reflexivity | now rewrite IH]. Qed.

Lemma string_prefix_refl (a : string) : string_prefix a a.
Proof. exists "". now rewrite string_app_nil_r. Qed.

Lemma string_prefix_trans (a b c : string) :
  string_prefix a b -> string_prefix b c -> string_prefix a c.
Proof. intros [x ->] [y ->]. exists (x ++ y)%string. now rewrite string_app_assoc. Qed.

Lemma string_prefix_app (a b : string) : string_prefix a (a ++ b).
Proof. now exists b. Qed.

(** ** What the statements of the crawler do to the graph and the log *)

Section Footprint.

Variable net : World.
Variable Rg : DiGraph.t -> DiGraph.t -> Prop.
Variable Rt : string -> string -> Prop.
Hypothesis HR : preorders Rg Rt.

Lemma rel_refl (s : state) : rel Rg Rt s s.
Proof using HR. destruct HR as (H1 & _ & H3 & _). split; [apply H1 | apply H3]. Qed.

Lemma rel_trans (a b c : state) : rel Rg Rt a b -> rel Rg Rt b c -> rel Rg Rt a c.
Proof using HR.
  destruct HR as (_ & H2 & _ & H4). intros [? ?] [? ?].
  split; [eapply H2 | eapply H4]; eassumption.
Qed.

Local Abbreviation keeps := (preserves (rel Rg Rt)).

Lemma keeps_untouched {A} (m : M A) :
  (forall s, graph (snd (m s)) = graph s
             /\ testNodeIncrease_txt (snd (m s)) = testNodeIncrease_txt s) ->
  keeps m.
Proof using HR.
  intros H s. destruct (H s) as [Hg Ht]. destruct HR as (H1 & _ & H3 & _).
  split; [rewrite Hg; apply H1 | rewrite Ht; apply H3].
Qed.

Lemma keeps_print (line : string) : keeps (print line).
Proof using HR. apply keeps_untouched. now intros s. Qed.

Lemma keeps_new_object : keeps new_object.
Proof using HR. apply keeps_untouched. now intros s. Qed.

Lemma keeps_get_graph : keeps get_graph.
Proof using HR. apply keeps_untouched. now intros s. Qed.

Lemma keeps_http_get (u : pyval) : keeps (http_get net u).
Proof using HR. apply keeps_untouched. now intros s. Qed.

Lemma keeps_os_remove : keeps os_remove_graph_xml.
Proof using HR.
  apply keeps_untouched. intros s. unfold os_remove_graph_xml.
  now destruct (graph_xml s).
Qed.

Lemma keeps_append (text : string) :
  (forall t, Rt t (t ++ text)%string) -> keeps (append_testNodeIncrease text).
Proof using HR. intros H s. destruct HR as (H1 & _). split; [apply H1 | apply H]. Qed.

Lemma keeps_ret {A} (a : A) : keeps (ret a).
Proof using HR. apply preserves_ret, rel_refl. Qed.

Lemma keeps_lift {A} (r : res A) : keeps (lift r).
Proof using HR. apply preserves_lift, rel_refl. Qed.

Lemma keeps_bind {A B} (m : M A) (k : A -> M B) :
  keeps m -> (forall a, keeps (k a)) -> keeps (bind m k).
Proof using HR. apply preserves_bind, rel_trans. Qed.

Lemma keeps_try_except {A} (m : M A) (h : exn -> M A) :
  keeps m -> (forall e, keeps (h e)) -> keeps (try_except m h).
Proof using HR. apply preserves_try_except, rel_trans. Qed.

Lemma keeps_for_each {A B} (body : A -> M B) (l : list A) (acc : list B) :
  (forall x, keeps (body x)) -> keeps (for_each body l acc).
Proof using HR. apply preserves_for_each; [apply rel_refl | apply rel_trans]. Qed.

Ltac keeps_step :=
  first [ apply keeps_ret | apply keeps_lift
        | apply keeps_print | apply keeps_new_object | apply keeps_get_graph
        | apply keeps_http_get | apply keeps_os_remove
        | apply keeps_bind; [| intros ?]
        | apply keeps_try_except; [| intros ?]
        | apply keeps_for_each; intros ? ].

Lemma keeps_addToGraph (u src : pyval) : admits Rg src u -> keeps (addToGraph u src).
Proof using HR.
  intros H s. unfold addToGraph, bind, update_graph. simpl.
  destruct HR as (_ & _ & H3 & _). split; [apply H | apply H3].
Qed.

Lemma keeps_Eintrag_init (u src : pyval) :
  admits Rg src u -> keeps (Eintrag_init net u src).
Proof using HR.
  intros H. unfold Eintrag_init, getHTMLCode.
  repeat first [ apply keeps_addToGraph; assumption | keeps_step ].
Qed.

Lemma keeps_index_at (depth : nat) (self : Eintrag) :
  (forall i x, admits Rg (Obj i) (Str x)) -> keeps (index_at net depth self).
Proof using HR.
  intros H. revert self. induction depth as [|d IH]; intros self; simpl.
  - keeps_step.
  - repeat first [ apply keeps_Eintrag_init; apply H | apply IH | keeps_step ].
Qed.

Lemma keeps_start (u : pyval) (layers : Z) :
  admits Rg u u -> (forall i x, admits Rg (Obj i) (Str x)) ->
  keeps (start net u layers).
Proof using HR.
  intros Hu H. unfold start, index.
  repeat first [ apply keeps_Eintrag_init; assumption
               | apply keeps_index_at; assumption | keeps_step ].
Qed.

Lemma keeps_getRandomURL : keeps (getRandomURL net).
Proof using HR. unfold getRandomURL. repeat keeps_step. Qed.

Lemma keeps_resetGraph : keeps resetGraph.
Proof using HR. unfold resetGraph. repeat keeps_step. Qed.

(** The growth test, when [Rg] allows every registration and [Rt] every
    append. *)
Hypothesis Rg_any : forall src u, admits Rg src u.
Hypothesis Rt_append : forall t text, Rt t (t ++ text)%string.

Lemma keeps_expand (i c : nat) : keeps (expand net i c).
Proof using HR Rg_any Rt_append.
  unfold expand.
  repeat first [ apply keeps_start; auto | apply keeps_append; auto | keeps_step ].
Qed.

Lemma keeps_run (layers : Z) (i : nat) : keeps (run net layers i).
Proof using HR Rg_any Rt_append.
  unfold run.
  repeat first [ apply keeps_start; auto | apply keeps_append; auto
               | apply keeps_getRandomURL | apply keeps_expand | keeps_step ].
Qed.

End Footprint.

(** ** The graph only grows *)

Lemma extends_refl (g : DiGraph.t) : extends g g.
Proof. split; apply list_prefix_refl. Qed.

Lemma extends_trans (a b c : DiGraph.t) : extends a b -> extends b c -> extends a c.
Proof. intros [? ?] [? ?]. split; eapply list_prefix_trans; eassumption. Qed.

Lemma extends_retains (g g' : DiGraph.t) : extends g g' -> retains g g'.
Proof.
  intros [Hn He]. split; [exact Hn|]. intros e. now apply list_prefix_In.
Qed.

Module DiGraphFacts.
Import DiGraph.

Lemma add_node_edges (n : pyval) (g : t) : edges (add_node n g) = edges g.
Proof. unfold add_node. now destruct (has_node n g). Qed.

Lemma add_node_extends (n : pyval) (g : t) : extends g (add_node n g).
Proof.
  unfold add_node. destruct (has_node n g); [apply extends_refl|].
  split; simpl; [now exists [n] | apply list_prefix_refl].
Qed.

Lemma add_edge_edges (u v : pyval) (g : t) :
  edges (add_edge u v g) = edges g \/ edges (add_edge u v g) = edges g ++ [(u, v)].
Proof.
  unfold add_edge. destruct (has_edge u v _); simpl;
    rewrite !add_node_edges; [now left | now right].
Qed.

Lemma add_edge_extends (u v : pyval) (g : t) : extends g (add_edge u v g).
Proof.
  unfold add_edge.
  assert (H : extends g (add_node v (add_node u g)))
    by (eapply extends_trans; apply add_node_extends).
  destruct (has_edge u v _); [exact H|].
  destruct H as [Hn He]. split; simpl; [exact Hn|].
  eapply list_prefix_trans; [exact He | now exists [(u, v)]].
Qed.

Lemma pyval_eqb_eq (a b : pyval) : pyval_eqb a b = true <-> a = b.
Proof.
  destruct a, b; simpl; split; intros H; try discriminate.
  - apply String.eqb_eq in H. now subst.
  - injection H as ->. apply String.eqb_refl.
  - apply Nat.eqb_eq in H. now subst.
  - injection H as ->. apply Nat.eqb_refl.
Qed.

Lemma has_edge_In (u v : pyval) (g : t) : has_edge u v g = true <-> In (u, v) (edges g).
Proof.
  unfold has_edge. rewrite existsb_exists. split.
  - intros [[a b] [Hin H]]. unfold edge_eqb in H. simpl in H.
    apply andb_prop in H. destruct H as [H1 H2].
    apply pyval_eqb_eq in H1, H2. now subst.
  - intros H. exists (u, v). split; [exact H|].
    unfold edge_eqb. simpl. apply andb_true_intro.
    split; now apply pyval_eqb_eq.
Qed.

(** After [add_edge u v] the edge is there. *)
Lemma add_edge_In (u v : pyval) (g : t) : In (u, v) (edges (add_edge u v g)).
Proof.
  unfold add_edge. destruct (has_edge u v _) eqn:E.
  - now apply has_edge_In.
  - simpl. apply in_or_app. right. now left.
Qed.

End DiGraphFacts.

Lemma grows_preorders : preorders extends string_prefix.
Proof.
  split; [exact extends_refl|]. split; [exact extends_trans|].
  split; [exact string_prefix_refl | exact string_prefix_trans].
Qed.

Lemma grows_refl (s : state) : grows s s.
Proof. apply rel_refl, grows_preorders. Qed.

Lemma grows_trans (a b c : state) : grows a b -> grows b c -> grows a c.
Proof. apply rel_trans, grows_preorders. Qed.

Lemma admits_extends (src u : pyval) : admits extends src u.
Proof.
  intros g. eapply extends_trans;
    [apply DiGraphFacts.add_node_extends | apply DiGraphFacts.add_edge_extends].
Qed.

Lemma same_log_preorders : preorders (fun _ _ => True) (fun t t' : string => t' = t).
Proof.
  split; [easy|]. split; [easy|]. split; [easy|]. intros a b c; congruence.
Qed.

Lemma edges_from_preorders (P : pyval * pyval -> Prop) :
  preorders (edges_from P) (fun _ _ : string => True).
Proof.
  split; [|split; [|easy]].
  - intros g e H. now left.
  - intros a b c Hab Hbc e H.
    destruct (Hbc e H) as [H'|H']; [now apply Hab | now right].
Qed.

Lemma admits_edges_from (P : pyval * pyval -> Prop) (src u : pyval) :
  P (src, u) -> admits (edges_from P) src u.
Proof.
  intros HP g e H.
  destruct (DiGraphFacts.add_edge_edges src u (DiGraph.add_node u g)) as [E|E];
    rewrite E, DiGraphFacts.add_node_edges in H.
  - now left.
  - apply in_app_or in H. destruct H as [H|[<-|[]]]; [now left | now right].
Qed.

(** ** Building an entry and opening a layer *)

Section CrawlSteps.

Variable net : World.

Lemma grows_Eintrag_init (u src : pyval) : preserves grows (Eintrag_init net u src).
Proof. apply keeps_Eintrag_init; [apply grows_preorders | apply admits_extends]. Qed.

Lemma grows_index_at (depth : nat) (self : Eintrag) :
  preserves grows (index_at net depth self).
Proof.
  apply keeps_index_at; [apply grows_preorders | intros; apply admits_extends].
Qed.

Lemma grows_start (u : pyval) (layers : Z) : preserves grows (start net u layers).
Proof.
  apply keeps_start;
    [apply grows_preorders | apply admits_extends | intros; apply admits_extends].
Qed.

Lemma grows_getRandomURL : preserves grows (getRandomURL net).
Proof. apply keeps_getRandomURL, grows_preorders. Qed.

Lemma grows_resetGraph : preserves grows resetGraph.
Proof. apply keeps_resetGraph, grows_preorders. Qed.

Lemma grows_expand (i c : nat) : preserves grows (expand net i c).
Proof.
  apply keeps_expand;
    [apply grows_preorders | apply admits_extends | apply string_prefix_app].
Qed.

Lemma grows_run (layers : Z) (i : nat) : preserves grows (run net layers i).
Proof.
  apply keeps_run;
    [apply grows_preorders | apply admits_extends | apply string_prefix_app].
Qed.

Lemma same_log_eq (s s' : state) :
  same_log s s' -> testNodeIncrease_txt s' = testNodeIncrease_txt s.
Proof. now intros [_ H]. Qed.

Lemma same_log_start (u : pyval) (layers : Z) : preserves same_log (start net u layers).
Proof. apply keeps_start; [apply same_log_preorders | easy | easy]. Qed.

Lemma same_log_getRandomURL : preserves same_log (getRandomURL net).
Proof. apply keeps_getRandomURL, same_log_preorders. Qed.

Lemma same_log_resetGraph : preserves same_log resetGraph.
Proof. apply keeps_resetGraph, same_log_preorders. Qed.

Lemma same_log_for_each_start (l : list pyval) (acc : list tree) :
  preserves same_log (for_each (fun e => start net e 0) l acc).
Proof.
  apply keeps_for_each; [apply same_log_preorders | intros x; apply same_log_start].
Qed.

Lemma grows_for_each_start (l : list pyval) (acc : list tree) :
  preserves grows (for_each (fun e => start net e 0) l acc).
Proof.
  apply keeps_for_each; [apply grows_preorders | intros x; apply grows_start].
Qed.

Lemma start_edges (u : pyval) (layers : Z) :
  preserves (rel (edges_from (crawl_edge u)) (fun _ _ : string => True))
            (start net u layers).
Proof.
  apply keeps_start.
  - apply edges_from_preorders.
  - apply admits_edges_from. now left.
  - intros i x. apply admits_edges_from. right. eauto.
Qed.

Lemma Eintrag_init_ok (u src : pyval) (s : state) (p : page) (t : string) :
  fetch net (requests s) u = Ret p ->
  getTitle p = Ret t ->
  Eintrag_init net u src s
  = (Ret (mkEintrag (objects s) u src p t), registered u src t s).
Proof.
  intros Hf Ht. unfold Eintrag_init, bind, new_object, getHTMLCode, http_get, lift.
  simpl. rewrite Hf, Ht. reflexivity.
Qed.


Lemma Eintrag_init_inv (u src : pyval) (s s' : state) (e : Eintrag) :
  Eintrag_init net u src s = (Ret e, s') ->
  url e = u /\ source e = src /\
  graph s' = DiGraph.add_edge src u (DiGraph.add_node u (graph s)).
Proof.
  unfold Eintrag_init, bind, new_object, getHTMLCode, http_get, lift. simpl.
  destruct (fetch net (requests s) u) as [p|x]; [|discriminate].
  destruct (getTitle p) as [t|x]; [|discriminate].
  simpl. intros H. injection H as <- <-. auto.
Qed.

(** [index] has no handler: when [getLinks] raises, [index] raises. *)
Lemma index_at_getLinks_raise (depth : nat) (self : Eintrag) (s : state) (e : exn) :
  getLinks self = Raise e -> index_at net (S depth) self s = (Raise e, s).
Proof. intros H. simpl. unfold bind, lift. now rewrite H. Qed.

(** With no link left, [index] returns without a request. *)
Lemma index_at_no_links (depth : nat) (self : Eintrag) (s : state) :
  getLinks self = Ret [] -> index_at net (S depth) self s = (Ret (Leaves []), s).
Proof. intros H. simpl. unfold bind, lift. now rewrite H. Qed.



Lemma layers_depth (layers : Z) :
  (0 <= layers)%Z -> exists d, Z.to_nat (layers + 1) = S d.
Proof. intros H. exists (Z.to_nat layers). lia. Qed.

(** [index] as the source writes it, in terms of [layers]. *)
Lemma index_unfold (self : Eintrag) (layers : Z) :
  index net self layers
  = if (layers <? 0)%Z then ret (Leaf self)
    else (links <- lift (getLinks self) ;;
          leaves <- for_each
                      (fun l => nextE <- Eintrag_init net (Str l) (Obj (oid self)) ;;
                                index net nextE (layers - 1))
                      links [] ;;
          ret (Leaves leaves)).
Proof.
  unfold index. destruct (Z.ltb_spec layers 0) as [H|H].
  - now replace (Z.to_nat (layers + 1)) with 0 by lia.
  - replace (Z.to_nat (layers + 1)) with (S (Z.to_nat (layers - 1 + 1))) by lia.
    reflexivity.
Qed.

(** [start] once the seed entry is built: open the layers, and print
    [Finished] when that returns. *)
Lemma start_after_init (u : pyval) (layers : Z) (s s1 : state) (e : Eintrag) :
  Eintrag_init net u u s = (Ret e, s1) ->
  start net u layers s
  = match index net e layers (snd (print ("Start at: " ++ title e) s1)) with
    | (Ret r, s2) => (Ret r, snd (print "Finished" s2))
    | (Raise x, s2) => (Raise x, s2)
    end.
Proof.
  intros H. unfold start. erewrite bind_ret_eq by exact H.
  unfold bind. cbn [print snd].
  now destruct (index net e layers _) as [[r|x] s2].
Qed.

End CrawlSteps.

(** * The claims *)

Lemma filter_mem_nil (l : list string) :
  filter (fun y => negb (LinkFilter.mem y [])) l = l.
Proof. induction l as [|x l IH]; simpl; [reflexivity | f_equal; exact IH]. Qed.



Section CrawlClaims.

Variable net : World.

(** C10.  An empty href that the first loop reaches raises IndexError at
    [str(l)[0]], outside the handler: [getLinks] raises whatever the other
    anchors are, [index] raises for every page with such an anchor, and a
    crawl started at such a page raises instead of taking the link list
    for empty. *)
Theorem empty_href_aborts_crawl (pre post links : list string) (u : pyval)
        (layers : Z) (s : state) (p : page) (t : string) :
  LinkFilter.filter_loop pre [] = LinkFilter.Next links ->
  hrefs p = pre ++ "" :: post ->
  fetch net (requests s) u = Ret p ->
  getTitle p = Ret t ->
  (0 <= layers)%Z ->
  LinkFilter.getLinks (hrefs p) = Raise (IndexError "string index out of range")
  /\ (forall depth self s0, html self = p ->
        index_at net (S depth) self s0
        = (Raise (IndexError "string index out of range"), s0))
  /\ exists s', start net u layers s
                = (Raise (IndexError "string index out of range"), s').
Proof.
  intros Hpre Hp Hf Ht Hl.
  assert (G : LinkFilter.getLinks (hrefs p)
              = Raise (IndexError "string index out of range")).
  { rewrite Hp. unfold LinkFilter.getLinks.
    erewrite LinkFilterFacts.filter_loop_app by eassumption. reflexivity. }
  assert (I : forall depth self s0, html self = p ->
              index_at net (S depth) self s0
              = (Raise (IndexError "string index out of range"), s0)).
  { intros depth self s0 Hs. apply index_at_getLinks_raise.
    unfold getLinks. now rewrite Hs. }
  repeat split; [exact G | exact I |].
  destruct (layers_depth layers Hl) as [d Hd].
  erewrite start_after_init by (apply Eintrag_init_ok; eassumption).
  unfold index. rewrite Hd, I by reflexivity. eexists. reflexivity.
Qed.

(** C2, as the code has it.  When no anchor survives the first loop, be it
    that the page has no anchor or that every anchor is filtered out,
    [result.pop()] raises IndexError on the empty list: [getLinks] raises,
    and so does [index] for such a page. *)
Theorem no_surviving_link_raises (anchors : list string) :
  LinkFilter.filter_loop anchors [] = LinkFilter.Next [] ->
  LinkFilter.getLinks anchors = Raise (IndexError "pop from empty list")
  /\ forall depth self s, hrefs (html self) = anchors ->
       index_at net (S depth) self s = (Raise (IndexError "pop from empty list"), s).
Proof.
  intros H.
  assert (G : LinkFilter.getLinks anchors = Raise (IndexError "pop from empty list")).
  { unfold LinkFilter.getLinks. now rewrite H. }
  split; [exact G|].
  intros depth self s Hs. apply index_at_getLinks_raise. unfold getLinks.
  now rewrite Hs.
Qed.

(** C1, amended.  A seed page whose anchors are two external links, a
    fragment link and one article link: the article link is the only and
    so the last entry of the filtered list and is dropped; a depth-0 crawl
    from the empty graph returns with one node, the seed, and one edge,
    the edge from the seed to itself. *)
Theorem depth0_single_link (u : pyval) (s : state) (p : page)
        (t e1 e2 f v : string) :
  graph s = DiGraph.empty ->
  fetch net (requests s) u = Ret p ->
  getTitle p = Ret t ->
  hrefs p = [e1; e2; f; v] ->
  PyStr.contains "https://" e1 = true ->
  PyStr.contains "https://" e2 = true ->
  LinkFilterSpec.starts_with_fragment f = true ->
  LinkFilterSpec.keep v = true ->
  exists s', start net u 0 s = (Ret (Leaves []), s')
             /\ graph s' = DiGraph.mk [u] [(u, u)].
Proof.
  intros Hg Hf Ht Hh H1 H2 H3 H4.
  assert (G : LinkFilter.getLinks (hrefs p) = Ret []).
  { rewrite Hh. unfold LinkFilter.getLinks. cbn [LinkFilter.filter_loop].
    erewrite LinkFilterFacts.filter_step_https by exact H1.
    erewrite LinkFilterFacts.filter_step_https by exact H2.
    erewrite LinkFilterFacts.filter_step_fragment by exact H3.
    erewrite LinkFilterFacts.filter_step_keep by exact H4.
    reflexivity. }
  erewrite start_after_init by (apply Eintrag_init_ok; eassumption).
  unfold index. change (Z.to_nat (0 + 1)) with 1.
  rewrite index_at_no_links by exact G.
  eexists. split; [reflexivity|].
  cbn [graph registered print snd]. rewrite Hg.
  unfold DiGraph.add_edge, DiGraph.add_node, DiGraph.has_node, DiGraph.has_edge,
    DiGraph.edge_eqb. simpl.
  assert (E : pyval_eqb u u = true) by now apply DiGraphFacts.pyval_eqb_eq.
  rewrite E. simpl. rewrite E. reflexivity.
Qed.

(** C3, amended.  A crawl registers its seed with the seed itself as
    source, so once the seed entry is built the graph has the edge from
    the seed to itself; that is the only self-edge a crawl adds: a
    self-edge of the graph after the crawl is the seed's or was there
    before. *)
Theorem seed_self_edge_only (u : pyval) (layers : Z) (s : state) :
  (forall a, In (a, a) (DiGraph.edges (graph (snd (start net u layers s)))) ->
             In (a, a) (DiGraph.edges (graph s)) \/ a = u)
  /\ (forall e s1, Eintrag_init net u u s = (Ret e, s1) ->
                   In (u, u) (DiGraph.edges (graph (snd (start net u layers s))))).
Proof.
  split.
  - intros a H. destruct (start_edges net u layers s) as [He _].
    destruct (He _ H) as [H'|[H'|(i & x & H')]].
    + now left.
    + right. congruence.
    + congruence.
  - intros e s1 H.
    assert (G : grows s1 (snd (start net u layers s))).
    { rewrite (start_after_init net u layers s s1 e H).
      pose proof (grows_index_at net (Z.to_nat (layers + 1)) e
                    (snd (print ("Start at: " ++ title e) s1))) as K.
      unfold index. destruct (index_at _ _ _ _) as [[r|x] s2]; exact K. }
    destruct G as [[_ Hedges] _].
    apply (list_prefix_In _ _ _ Hedges).
    apply Eintrag_init_inv in H. destruct H as (_ & _ & ->).
    apply DiGraphFacts.add_edge_In.
Qed.


End CrawlClaims.

(** ** The growth test *)

Section GrowthTest.

Variable net : World.

(** [resetGraph] always returns; it removes the file and leaves the graph
    in memory and the log as they are. *)
Lemma resetGraph_spec (s : state) :
  fst (resetGraph s) = Ret tt
  /\ graph (snd (resetGraph s)) = graph s
  /\ graph_xml (snd (resetGraph s)) = false
  /\ testNodeIncrease_txt (snd (resetGraph s)) = testNodeIncrease_txt s.
Proof.
  unfold resetGraph, try_except, bind, os_remove_graph_xml.
  destruct (graph_xml s) eqn:E; simpl; auto.
Qed.

Lemma run_after_seed (layers : Z) (i : nat) (s0 s1 s2 : state) (u : string) (t : tree) :
  getRandomURL net s0 = (Ret u, s1) ->
  start net (Str u) 0 s1 = (Ret t, s2) ->
  run net layers i s0
  = (for_each (expand net i) (range layers) [] ;; ret tt) (seeded i s2).
Proof.
  intros Hu Hs. unfold run.
  erewrite bind_ret_eq by exact Hu.
  erewrite bind_ret_eq by exact Hs.
  reflexivity.
Qed.

Lemma first_record_eq (i n : nat) :
  (PyStr.of_nat i ++ ".0: " ++ PyStr.of_nat n ++ newline)%string
  = (record i 0 n ++ newline)%string.
Proof. unfold record. rewrite string_app_assoc. reflexivity. Qed.

Lemma seeded_log (i : nat) (s2 : state) :
  testNodeIncrease_txt (seeded i s2)
  = (testNodeIncrease_txt s2
     ++ record i 0 (DiGraph.number_of_nodes (graph s2)) ++ newline)%string.
Proof.
  unfold seeded, append_testNodeIncrease, print.
  cbn [snd testNodeIncrease_txt graph]. now rewrite first_record_eq.
Qed.

(** What holds of the state after [m] holds after [m ;; k] when [k]
    preserves it. *)
Lemma grows_after {A B} (m : M A) (k : A -> M B) (s mid : state) :
  (forall a, preserves grows (k a)) ->
  grows mid (snd (m s)) -> grows mid (snd (bind m k s)).
Proof.
  intros Hk H. unfold bind. destruct (m s) as [[a|e] s1]; simpl in *; [|exact H].
  eapply grows_trans; [exact H | apply Hk].
Qed.

Lemma grows_for_each_expand (i : nat) (l : list nat) (acc : list unit) :
  preserves grows (for_each (expand net i) l acc).
Proof.
  apply keeps_for_each; [apply grows_preorders | intros c; apply grows_expand].
Qed.

Lemma grows_for_each_run (layers : Z) (l : list nat) (acc : list unit) :
  preserves grows (for_each (run net layers) l acc).
Proof.
  apply keeps_for_each; [apply grows_preorders | intros c; apply grows_run].
Qed.

(** C6, amended.  The reset of the growth test removes the file
    [graph.xml] and nothing else: the graph in memory is the one from
    before the test.  The count in the record of run 0, iteration 0 is the
    number of nodes of a graph that begins with all the nodes from before
    the test. *)
Theorem reset_keeps_graph_in_memory (runs layers : Z) (s s1 s2 : state)
        (u : string) (t : tree) :
  (0 < runs)%Z ->
  getRandomURL net (snd (resetGraph s)) = (Ret u, s1) ->
  start net (Str u) 0 s1 = (Ret t, s2) ->
  graph (snd (resetGraph s)) = graph s
  /\ graph_xml (snd (resetGraph s)) = false
  /\ list_prefix (DiGraph.nodes (graph s)) (DiGraph.nodes (graph s2))
  /\ string_prefix
       (testNodeIncrease_txt s
        ++ record 0 0 (DiGraph.number_of_nodes (graph s2)) ++ newline)
       (testNodeIncrease_txt (snd (testNodeIncrease net runs layers s))).
Proof.
  intros Hr Hu Hs.
  destruct (resetGraph_spec s) as (R1 & R2 & R3 & R4).
  split; [exact R2|]. split; [exact R3|]. split.
  - pose proof (grows_getRandomURL net (snd (resetGraph s))) as [[K1 _] _].
    pose proof (grows_start net (Str u) 0 s1) as [[K2 _] _].
    rewrite Hu in K1. rewrite Hs in K2. rewrite R2 in K1.
    eapply list_prefix_trans; eassumption.
  - assert (L : testNodeIncrease_txt (seeded 0 s2)
                = (testNodeIncrease_txt s
                   ++ record 0 0 (DiGraph.number_of_nodes (graph s2)) ++ newline)%string).
    { rewrite seeded_log. f_equal.
      pose proof (same_log_getRandomURL net (snd (resetGraph s))) as K1.
      pose proof (same_log_start net (Str u) 0 s1) as K2.
      rewrite Hu in K1. rewrite Hs in K2.
      apply same_log_eq in K1, K2. simpl in K1, K2. congruence. }
    rewrite <- L.
    assert (G : grows (seeded 0 s2) (snd (testNodeIncrease net runs layers s)));
      [|exact (proj2 G)].
    unfold testNodeIncrease.
    erewrite bind_ret_eq by (rewrite (surjective_pairing (resetGraph s)), R1; reflexivity).
    apply grows_after; [intros a s'; apply grows_refl|].
    unfold range. replace (Z.to_nat runs) with (S (Z.to_nat runs - 1)) by lia.
    cbn [seq for_each].
    apply grows_after; [intros a; apply grows_for_each_run|].
    rewrite (run_after_seed layers 0 _ s1 s2 u t Hu Hs).
    apply keeps_bind; [apply grows_preorders | apply grows_for_each_expand |].
    intros a s'. apply grows_refl.
Qed.

(** C7, as the code has it.  A growth test with one run and one layer
    that returns has appended two records to the log: the count after the
    seed crawl, labelled [0.0] and followed by a newline, and the count
    after the expansion, labelled [0.0] again and not followed by a
    newline; the second count is at least the first. *)
Theorem growth_log_one_run_one_layer (s s' : state) :
  testNodeIncrease net 1 1 s = (Ret tt, s') ->
  exists n m,
    testNodeIncrease_txt s'
    = (testNodeIncrease_txt s ++ record 0 0 n ++ newline ++ record 0 0 m)%string
    /\ n <= m.
Proof.
  intros H. unfold testNodeIncrease in H.
  destruct (resetGraph_spec s) as (R1 & R2 & R3 & R4).
  erewrite bind_ret_eq in H
    by (rewrite (surjective_pairing (resetGraph s)), R1; reflexivity).
  set (s0 := snd (resetGraph s)) in *.
  apply bind_ret_inv in H. destruct H as (a0 & sa & H & Hfin).
  injection Hfin as <-.
  change (range 1) with [0] in H. cbn [for_each] in H.
  apply bind_ret_inv in H. destruct H as ([] & sb & H & Hb).
  injection Hb as _ <-.
  unfold run in H.
  apply bind_ret_inv in H. destruct H as (u & s1 & Hu & H).
  apply bind_ret_inv in H. destruct H as (t & s2 & Hs & H).
  change (range 1) with [0] in H.
  apply bind_ret_inv in H. destruct H as (g & s2' & Hg & H).
  injection Hg as <- <-.
  apply bind_ret_inv in H. destruct H as ([] & s3 & Hp & H).
  apply bind_ret_inv in H. destruct H as ([] & s4 & Ha & H).
  apply bind_ret_inv in H. destruct H as (l & s5 & H & Hc).
  injection Hc as <-.
  cbn [for_each] in H.
  apply bind_ret_inv in H. destruct H as ([] & s6 & H & Hd).
  injection Hd as _ <-.
  unfold expand in H.
  apply bind_ret_inv in H. destruct H as (g4 & s4' & Hg4 & H).
  injection Hg4 as <- <-.
  apply bind_ret_inv in H. destruct H as (ts & s7 & Hl & H).
  apply bind_ret_inv in H. destruct H as (g7 & s7' & Hg7 & H).
  injection Hg7 as <- <-.
  apply bind_ret_inv in H. destruct H as ([] & s8 & Hp8 & H).
  exists (DiGraph.number_of_nodes (graph s2)), (DiGraph.number_of_nodes (graph s7)).
  injection Hp as <-. injection Ha as <-. injection Hp8 as <-. injection H as <-.
  pose proof (same_log_getRandomURL net s0) as K1.
  pose proof (same_log_start net (Str u) 0 s1) as K2.
  rewrite Hu in K1. rewrite Hs in K2. apply same_log_eq in K1, K2. simpl in K1, K2.
  split.
  - cbn [testNodeIncrease_txt].
    set (g4 := graph _) in Hl.
    pose proof (same_log_for_each_start net (endList g4) []) as K3.
    match type of Hl with _ ?st = _ => specialize (K3 st) end.
    rewrite Hl in K3. apply same_log_eq in K3. cbn in K3.
    rewrite K3, K2, K1, R4. unfold record.
    change (PyStr.of_nat 0) with "0".
    repeat (rewrite string_app_assoc; cbn [append]). reflexivity.
  - set (g4 := graph _) in Hl.
    pose proof (grows_for_each_start net (endList g4) []) as K3.
    match type of Hl with _ ?st = _ => specialize (K3 st) end.
    rewrite Hl in K3. destruct K3 as [[K3 _] _]. cbn in K3.
    unfold DiGraph.number_of_nodes. now apply list_prefix_length.
Qed.

End GrowthTest.

(** ** A request that fails below the seed *)

Section FetchErrors.

Variable net : World.



End FetchErrors.

(** ** The claims on the example sites *)



Lemma empty_href_aborts_crawl_witness :
  exists s', start Examples.empty_href (Str Examples.seed) 0 Examples.fresh
             = (Raise (IndexError "string index out of range"), s').
Proof.
  exact (proj2 (proj2
    (empty_href_aborts_crawl Examples.empty_href ["/wiki/A"] ["/wiki/B"] ["/wiki/A"]
       (Str Examples.seed) 0 Examples.fresh Examples.empty_href_page "Seed"
       eq_refl eq_refl eq_refl eq_refl (Z.le_refl 0)))).
Defined.

Lemma no_surviving_link_raises_witness :
  LinkFilter.getLinks ["/wiki/Diskussion:Seed"; "/wiki/Spezial:Suche"]
  = Raise (IndexError "pop from empty list").
Proof.
  exact (proj1 (no_surviving_link_raises Examples.one_link
                  ["/wiki/Diskussion:Seed"; "/wiki/Spezial:Suche"] eq_refl)).
Defined.

Lemma depth0_single_link_witness :
  exists s', start Examples.one_link (Str Examples.seed) 0 Examples.fresh
             = (Ret (Leaves []), s')
             /\ graph s' = DiGraph.mk [Str Examples.seed]
                                      [(Str Examples.seed, Str Examples.seed)].
Proof.
  exact (depth0_single_link Examples.one_link (Str Examples.seed) Examples.fresh
           Examples.one_link_page "Seed"
           "https://www.wikidata.org/wiki/Q64"
           "https://commons.wikimedia.org/wiki/Berlin" "#cite" "/wiki/Berlin"
           eq_refl eq_refl eq_refl eq_refl eq_refl eq_refl eq_refl eq_refl).
Defined.

(** C1 as stated fails on that site: the crawl does not leave two nodes
    and an edge from the seed to the target. *)
Lemma depth0_single_link_counterexample :
  ~ (DiGraph.number_of_nodes
       (graph (snd (start Examples.one_link (Str Examples.seed) 0 Examples.fresh))) = 2
     /\ DiGraph.edges
          (graph (snd (start Examples.one_link (Str Examples.seed) 0 Examples.fresh)))
        = [(Str Examples.seed, Str (Examples.wiki "/wiki/Berlin"))]).
Proof. vm_compute. intros [H _]. discriminate H. Qed.

Lemma seed_self_edge_only_witness :
  In (Str Examples.seed, Str Examples.seed)
     (DiGraph.edges
        (graph (snd (start Examples.two_links (Str Examples.seed) 1 Examples.fresh)))).
Proof.
  exact (proj2 (seed_self_edge_only Examples.two_links (Str Examples.seed) 1
                  Examples.fresh)
               _ _ eq_refl).
Defined.

(** C3 as stated fails: the graph of a crawl has a self-edge. *)
Lemma seed_self_edge_counterexample :
  ~ (forall a, ~ In (a, a)
                    (DiGraph.edges
                       (graph (snd (start Examples.one_link (Str Examples.seed) 0
                                          Examples.fresh))))).
Proof. intros H. apply (H (Str Examples.seed)). vm_compute. now left. Qed.

(** C4, as the code has it.  [index] passes the parent object, not the
    parent's URL, as the source of a child.  On a seed page with the
    article links A and B, a depth-0 crawl registers the edge to A with an
    [Eintrag] object as its source; the same crawl again registers a
    second edge to A from a second object.  The graph then has three nodes
    for the seed and two edges for the one pair of seed and A. *)
Theorem edge_sources_are_objects :
  DiGraph.edges (graph (snd (start Examples.two_links (Str Examples.seed) 0
                                   Examples.fresh)))
  = [(Str Examples.seed, Str Examples.seed); (Obj 0, Str (Examples.wiki "/wiki/A"))]
  /\ graph (snd (start Examples.two_links (Str Examples.seed) 0
                   (snd (start Examples.two_links (Str Examples.seed) 0
                               Examples.fresh))))
     = DiGraph.mk
         [Str Examples.seed; Str (Examples.wiki "/wiki/A"); Obj 0; Obj 2]
         [(Str Examples.seed, Str Examples.seed);
          (Obj 0, Str (Examples.wiki "/wiki/A"));
          (Obj 2, Str (Examples.wiki "/wiki/A"))].
Proof. split; vm_compute; reflexivity. Qed.





Lemma reset_keeps_graph_in_memory_witness :
  graph (snd (resetGraph Examples.visited)) = graph Examples.visited
  /\ graph_xml (snd (resetGraph Examples.visited)) = false
  /\ list_prefix
       (DiGraph.nodes (graph Examples.visited))
       (DiGraph.nodes
          (graph (snd (start Examples.growth (Str Examples.seed) 0
                         (snd (getRandomURL Examples.growth
                                 (snd (resetGraph Examples.visited))))))))
  /\ string_prefix
       (testNodeIncrease_txt Examples.visited
        ++ record 0 0
             (DiGraph.number_of_nodes
                (graph (snd (start Examples.growth (Str Examples.seed) 0
                               (snd (getRandomURL Examples.growth
                                       (snd (resetGraph Examples.visited))))))))
        ++ newline)
       (testNodeIncrease_txt (snd (testNodeIncrease Examples.growth 1 1 Examples.visited))).
Proof.
  apply (reset_keeps_graph_in_memory Examples.growth 1 1 Examples.visited
           (snd (getRandomURL Examples.growth (snd (resetGraph Examples.visited))))
           (snd (start Examples.growth (Str Examples.seed) 0
                   (snd (getRandomURL Examples.growth
                           (snd (resetGraph Examples.visited))))))
           Examples.seed
           (Leaves [Leaf (mkEintrag 1 (Str (Examples.wiki "/wiki/A")) (Obj 0)
                            (Examples.article "A" ["/wiki/Seed"; "/wiki/D"]) "A");
                    Leaf (mkEintrag 2 (Str (Examples.wiki "/wiki/B")) (Obj 0)
                            (Examples.article "B" ["/wiki/A"; "/wiki/E"]) "B")]));
    vm_compute; reflexivity.
Defined.

(** C6 as stated fails: the node from before the test is in the graph
    after the reset, and the first record counts it, 5 nodes where the
    same crawl from an empty graph leaves 4. *)
Lemma reset_leaves_nodes_counterexample :
  DiGraph.nodes (graph (snd (resetGraph Examples.visited))) <> []
  /\ testNodeIncrease_txt (snd (testNodeIncrease Examples.growth 1 0 Examples.visited))
     = (record 0 0 5 ++ newline)%string
  /\ DiGraph.number_of_nodes
       (graph (snd (testNodeIncrease Examples.growth 1 0 Examples.fresh))) = 4.
Proof. split; [vm_compute; discriminate | split; vm_compute; reflexivity]. Qed.

Lemma growth_log_one_run_one_layer_witness :
  exists n m,
    testNodeIncrease_txt (snd (testNodeIncrease Examples.growth 1 1 Examples.fresh))
    = (testNodeIncrease_txt Examples.fresh
       ++ record 0 0 n ++ newline ++ record 0 0 m)%string
    /\ n <= m.
Proof.
  apply (growth_log_one_run_one_layer Examples.growth Examples.fresh).
  vm_compute. reflexivity.
Defined.

(** * Further properties of the code *)

(** ** The link filter *)

Module LinkFilterMore.
Import LinkFilter LinkFilterFacts.

Lemma dedup_In (l : list string) (x : string) :
  In x (LinkFilterSpec.dedup l) <-> In x l.
Proof.
  induction l as [|y l IH]; simpl; [tauto|].
  rewrite filter_In, IH. split.
  - intros [H|[H _]]; auto.
  - intros [H|H]; [now left|].
    destruct (String.eqb_spec x y) as [->|N]; [now left|].
    right. split; [exact H | reflexivity].
Qed.

Lemma dedup_NoDup (l : list string) : NoDup (LinkFilterSpec.dedup l).
Proof.
  induction l as [|y l IH]; simpl; constructor.
  - rewrite filter_In. intros [_ H]. now rewrite String.eqb_refl in H.
  - now apply NoDup_filter.
Qed.

Lemma removelast_In {A} (l : list A) (x : A) : In x (removelast l) -> In x l.
Proof.
  induction l as [|y l IH]; simpl; [tauto|].
  destruct l as [|z l]; [tauto|]. intros [H|H]; [now left | right; now apply IH].
Qed.

Lemma removelast_NoDup {A} (l : list A) : NoDup l -> NoDup (removelast l).
Proof.
  destruct l as [|y l]; [trivial|]. intros H.
  rewrite (app_removelast_last y (l := y :: l)) in H by discriminate.
  now apply NoDup_app_remove_r in H.
Qed.

(** What [getLinks] returns on its way through both loops. *)
Lemma getLinks_through (anchors links r : list string) :
  filter_loop anchors [] = Next links ->
  getLinks anchors = Ret r ->
  exists x,
    LinkFilterSpec.dedup (map (String.append origin) (filter LinkFilterSpec.keep anchors))
    = r ++ [x].
Proof.
  intros E. unfold getLinks. rewrite E.
  apply filter_loop_next in E. simpl in E. subst links.
  rewrite build_loop_dedup. cbn [app]. rewrite filter_mem_nil.
  destruct (LinkFilterSpec.dedup _) as [|y d]; [discriminate|].
  destruct (pop_removelast (y :: d)) as [x Hx]; [discriminate|].
  rewrite Hx. intros H. injection H as <-. exists (last (y :: d) y).
  unfold pop in Hx. destruct (rev (y :: d)); [discriminate|].
  apply app_removelast_last. discriminate.
Qed.

Lemma getLinks_returns (anchors r : list string) :
  getLinks anchors = Ret r ->
  r = [] \/ exists links, filter_loop anchors [] = Next links.
Proof.
  unfold getLinks. destruct (filter_loop anchors []) as [links|v|e] eqn:E.
  - intros _. right. now exists links.
  - intros H. injection H as <-. left. now apply filter_loop_return in E.
  - discriminate.
Qed.

(** X1.  The list [getLinks] returns has no URL twice. *)
Theorem getLinks_no_duplicates (anchors r : list string) :
  getLinks anchors = Ret r -> NoDup r.
Proof.
  intros H. destruct (getLinks_returns _ _ H) as [->|[links E]]; [constructor|].
  destruct (getLinks_through _ _ _ E H) as [x Hx].
  pose proof (dedup_NoDup (map (String.append origin)
                             (filter LinkFilterSpec.keep anchors))) as N.
  rewrite Hx in N. now apply NoDup_app_remove_r in N.
Qed.

(** X2.  Every URL [getLinks] returns is the site origin followed by an
    anchor of the page that the rules keep: it has no scheme, is no
    fragment, its path goes through [wiki], and its namespace is not an
    excluded one. *)
Theorem getLinks_only_article_links (anchors r : list string) (x : string) :
  getLinks anchors = Ret r -> In x r ->
  exists l, In l anchors /\ LinkFilterSpec.keep l = true /\ x = (origin ++ l)%string.
Proof.
  intros H Hx. destruct (getLinks_returns _ _ H) as [->|[links E]]; [destruct Hx|].
  destruct (getLinks_through _ _ _ E H) as [y Hy].
  assert (Hin : In x (LinkFilterSpec.dedup
                        (map (String.append origin)
                             (filter LinkFilterSpec.keep anchors)))).
  { rewrite Hy. apply in_or_app. now left. }
  apply dedup_In, in_map_iff in Hin. destruct Hin as (l & <- & Hl).
  apply filter_In in Hl. destruct Hl as [Hl Hk]. now exists l.
Qed.

(** X3.  When filtering completes, [getLinks] returns all the distinct
    kept URLs but the last one, which is not among those it returns: one
    article link of the page is never handed to the crawl. *)
Theorem getLinks_withholds_last (anchors : list string) :
  completes anchors = true ->
  exists r x,
    getLinks anchors = Ret r
    /\ LinkFilterSpec.dedup
         (map (String.append origin) (filter LinkFilterSpec.keep anchors))
       = r ++ [x]
    /\ ~ In x r.
Proof.
  intros C.
  assert (H : exists r, getLinks anchors = Ret r).
  { unfold completes in C. unfold getLinks.
    destruct (filter_loop anchors []) as [links| |]; try discriminate.
    destruct (build_loop links []) as [|y d]; [discriminate|].
    destruct (pop_removelast (y :: d)) as [x ->]; [discriminate|]. now eexists. }
  destruct H as [r H]. unfold completes in C.
  destruct (filter_loop anchors []) as [links| |] eqn:E; try discriminate.
  destruct (getLinks_through _ _ _ E H) as [x Hx]. exists r, x.
  split; [exact H|]. split; [exact Hx|].
  pose proof (dedup_NoDup (map (String.append origin)
                             (filter LinkFilterSpec.keep anchors))) as N.
  rewrite Hx in N. apply NoDup_remove_2 in N. now rewrite app_nil_r in N.
Qed.

Lemma filter_step_skipped (l : string) (links : list string) :
  skipped l = true -> filter_step l links = Next links.
Proof.
  unfold skipped. intros H.
  apply orb_prop in H. destruct H as [H|H]; [apply orb_prop in H; destruct H as [H|H]|].
  - now apply filter_step_https.
  - now apply filter_step_http.
  - now apply filter_step_fragment.
Qed.

Lemma filter_loop_skipped (anchors links : list string) :
  filter_loop (filter (fun l => negb (skipped l)) anchors) links
  = filter_loop anchors links.
Proof.
  revert links. induction anchors as [|l anchors IH]; intros links; [reflexivity|].
  cbn [filter]. destruct (skipped l) eqn:S; cbn [negb filter_loop].
  - rewrite (filter_step_skipped l links S). apply IH.
  - destruct (filter_step l links); [apply IH | reflexivity | reflexivity].
Qed.

(** X4.  Absolute links and fragment links are passed over: a page
    without them gives the same list, or the same exception. *)
Theorem getLinks_passes_over_skipped (anchors : list string) :
  getLinks (filter (fun l => negb (skipped l)) anchors) = getLinks anchors.
Proof. unfold getLinks. now rewrite filter_loop_skipped. Qed.

End LinkFilterMore.

(** ** Python strings *)

Module PyStrFacts.
Import PyStr.


Lemma split_nonempty (sep : ascii) (s : string) :
  exists w ws, split sep s = w :: ws.
Proof.
  destruct s as [|c s]; simpl; [now eexists; eexists|].
  destruct (Ascii.eqb c sep); [now eexists; eexists|].
  destruct (split sep s); now eexists; eexists.
Qed.

(** A separator cuts the string in two: the pieces are the pieces of the
    part before it and the pieces of the part after it. *)
Lemma split_app (sep : ascii) (x y : string) :
  split sep (x ++ String sep y) = split sep x ++ split sep y.
Proof.
  induction x as [|c x IH]; simpl.
  - now rewrite Ascii.eqb_refl.
  - destruct (Ascii.eqb c sep); [now rewrite IH|].
    rewrite IH. destruct (split_nonempty sep x) as (w & ws & ->). reflexivity.
Qed.

Lemma split_without (sep : ascii) (s : string) :
  occurs sep s = false -> split sep s = [s].
Proof.
  induction s as [|c s IH]; simpl; [reflexivity|].
  intros H. apply orb_false_elim in H. destruct H as [H1 H2].
  rewrite H1, (IH H2). reflexivity.
Qed.

Lemma concat_cons_char (sep : string) (c : ascii) (w : string) (ws : list string) :
  String.concat sep (String c w :: ws) = String c (String.concat sep (w :: ws)).
Proof. destruct ws; reflexivity. Qed.

(** [sep.join(s.split(sep)) == s] *)
Lemma join_split (sep : ascii) (s : string) :
  join (String sep EmptyString) (split sep s) = s.
Proof.
  unfold join. induction s as [|c s IH]; simpl; [reflexivity|].
  destruct (Ascii.eqb_spec c sep) as [->|N].
  - destruct (split_nonempty sep s) as (w & ws & E). rewrite E in *.
    change (String.concat (String sep "") ("" :: w :: ws))
      with (String sep (String.concat (String sep "") (w :: ws))).
    now rewrite IH.
  - destruct (split_nonempty sep s) as (w & ws & E). rewrite E in *.
    now rewrite concat_cons_char, IH.
Qed.

Lemma occurs_cut (c : ascii) (s : string) :
  occurs c s = true -> exists x y, s = (x ++ String c y)%string.
Proof.
  induction s as [|d s IH]; simpl; [discriminate|].
  destruct (Ascii.eqb_spec d c) as [->|N]; simpl.
  - intros _. now exists EmptyString, s.
  - intros H. destruct (IH H) as (x & y & ->). now exists (String d x), y.
Qed.

Lemma pop_last {A} (l : list A) (x : A) : pop (l ++ [x]) = Ret (l, x).
Proof. unfold pop. now rewrite rev_unit, removelast_last. Qed.

End PyStrFacts.

Import PyStrFacts.

Section ShortPaths.

Variable net : World.

Lemma skipped_false (l : string) :
  skipped l = false ->
  PyStr.contains "https://" l = false /\ PyStr.contains "http://" l = false
  /\ LinkFilterSpec.starts_with_fragment l = false.
Proof.
  unfold skipped. intros H.
  apply orb_false_elim in H. destruct H as [H H3].
  apply orb_false_elim in H. now destruct H as [H1 H2].
Qed.

Lemma filter_step_short_path (l a : string) (links : list string) :
  skipped l = false -> l <> "" ->
  PyStr.split "/" l = [a] \/ PyStr.split "/" l = [a; "wiki"] ->
  LinkFilter.filter_step l links = LinkFilter.Return_ [].
Proof.
  intros S N H. destruct (skipped_false l S) as (H1 & H2 & H3).
  unfold LinkFilter.filter_step. rewrite H1, H2. cbn [negb].
  destruct l as [|c l0]; [now elim N|].
  cbn [LinkFilterSpec.starts_with_fragment] in H3. rewrite H3. cbn [negb].
  destruct H as [-> | ->]; reflexivity.
Qed.

(** X5.  A path without a slash, or one that ends after [/wiki], raises
    inside the [try] when the first loop meets it, and the handler ends
    [getLinks] with the empty list: the links collected before it and the
    anchors after it are lost, and [index] takes the page for a leaf. *)
Theorem getLinks_gives_up_at_short_path (pre post links : list string) (l : string) :
  LinkFilter.filter_loop pre [] = LinkFilter.Next links ->
  skipped l = false -> l <> "" ->
  occurs "/" l = false
  \/ (exists a, occurs "/" a = false /\ l = (a ++ "/wiki")%string) ->
  LinkFilter.getLinks (pre ++ l :: post) = Ret []
  /\ forall depth self s, hrefs (html self) = pre ++ l :: post ->
       index_at net (S depth) self s = (Ret (Leaves []), s).
Proof.
  intros Hpre S N H.
  assert (G : LinkFilter.getLinks (pre ++ l :: post) = Ret []).
  { apply LinkFilterFacts.getLinks_malformed_entry with (links := links);
      [exact Hpre|].
    destruct H as [H|(a & Ha & ->)].
    - apply filter_step_short_path with (a := l); auto.
      left. now apply PyStrFacts.split_without.
    - apply filter_step_short_path with (a := a); auto. right.
      change (a ++ "/wiki")%string with (a ++ String "/" "wiki")%string.
      rewrite PyStrFacts.split_app, (PyStrFacts.split_without "/" a Ha). reflexivity. }
  split; [exact G|]. intros depth self s Hs.
  apply index_at_no_links. unfold getLinks. now rewrite Hs.
Qed.

End ShortPaths.

(** ** Titles and entries *)

Section Entries.

Variable net : World.

(** X6.  [getTitle] drops the last two words of the title text: for a
    title that ends in a space and two words, such as the dash and the
    site name, it returns what is in front of them. *)
Theorem getTitle_drops_two_words (name a b : string) (anchors : list string) :
  occurs " " a = false -> occurs " " b = false ->
  getTitle (mkPage (Some (name ++ " " ++ a ++ " " ++ b)%string) anchors) = Ret name.
Proof.
  intros Ha Hb. unfold getTitle, find_title_text. cbn [title_tag].
  change (name ++ " " ++ a ++ " " ++ b)%string
    with (name ++ String " " (a ++ String " " b))%string.
  rewrite !split_app, (split_without " " a Ha), (split_without " " b Hb).
  rewrite app_assoc, pop_last, pop_last. now rewrite join_split.
Qed.

Lemma pop_cons {A} (x : A) (l : list A) :
  exists y, pop (x :: l) = Ret (removelast (x :: l), y).
Proof. apply LinkFilterFacts.pop_removelast. discriminate. Qed.

(** X7.  [getTitle] raises in two cases only: AttributeError when the
    document has no [title] element, IndexError when the title text has
    no space, so that the second [pop] finds the list empty. *)
Theorem getTitle_raises_iff (p : page) (e : exn) :
  getTitle p = Raise e <->
  (title_tag p = None
   /\ e = AttributeError "'NoneType' object has no attribute 'text'")
  \/ (exists ft, title_tag p = Some ft /\ occurs " " ft = false
                 /\ e = IndexError "pop from empty list").
Proof.
  unfold getTitle, find_title_text. destruct (title_tag p) as [ft|].
  - destruct (occurs " " ft) eqn:O.
    + apply occurs_cut in O. destruct O as (x & y & ->).
      rewrite split_app.
      destruct (split_nonempty " " x) as (w & ws & ->).
      destruct (split_nonempty " " y) as (v & vs & ->).
      cbn [app]. destruct (pop_cons w (ws ++ v :: vs)) as [z ->].
      assert (R : exists t ts, removelast (w :: ws ++ v :: vs) = t :: ts).
      { change (w :: ws ++ v :: vs) with ((w :: ws) ++ v :: vs).
        rewrite removelast_app by discriminate. now eexists; eexists. }
      destruct R as (t & ts & ->). destruct (pop_cons t ts) as [z' ->].
      split; [discriminate|].
      intros [[H _]|(ft & H & H' & _)]; [discriminate|].
      injection H as <-.
      assert (C : occurs " " (x ++ String " " y) = true).
      { clear. induction x as [|c x IH]; simpl; [reflexivity|].
        rewrite IH. apply orb_true_r. }
      congruence.
    + rewrite (split_without " " ft O). cbn. split.
      * intros H. injection H as <-. right. now exists ft.
      * intros [[H _]|(ft' & _ & _ & ->)]; [discriminate | reflexivity].
  - split.
    + intros H. injection H as <-. now left.
    + intros [[_ ->]|(ft & H & _)]; [reflexivity | discriminate].
Qed.

Lemma Eintrag_init_raise_inv (u src : pyval) (s s' : state) (e : exn) :
  Eintrag_init net u src s = (Raise e, s') ->
  s' = failed_request s
  /\ (fetch net (requests s) u = Raise e
      \/ exists p, fetch net (requests s) u = Ret p /\ getTitle p = Raise e).
Proof.
  unfold Eintrag_init, bind, new_object, getHTMLCode, http_get, lift. simpl.
  destruct (fetch net (requests s) u) as [p|x] eqn:F.
  - destruct (getTitle p) as [t|x] eqn:T; simpl; [discriminate|].
    intros H. injection H as <- <-. split; [reflexivity|]. right. now exists p.
  - intros H. injection H as <- <-. split; [reflexivity|]. now left.
Qed.

(** X8.  When the constructor of [Eintrag] raises, the request failed or
    the page has no usable title; the object and the request are spent
    and nothing else has happened: the page is not in the graph and
    nothing was printed. *)
Theorem Eintrag_init_raises (u src : pyval) (s s' : state) (e : exn) :
  Eintrag_init net u src s = (Raise e, s') ->
  (fetch net (requests s) u = Raise e
   \/ exists p, fetch net (requests s) u = Ret p /\ getTitle p = Raise e)
  /\ graph s' = graph s /\ console s' = console s
  /\ requests s' = S (requests s) /\ objects s' = S (objects s).
Proof.
  intros H. apply Eintrag_init_raise_inv in H. destruct H as [-> H]. now split.
Qed.

End Entries.

(** ** The graph *)

Module DiGraphMore.
Import DiGraph DiGraphFacts.

Lemma has_node_In (n : pyval) (g : t) : has_node n g = true <-> In n (nodes g).
Proof.
  unfold has_node. rewrite existsb_exists. split.
  - intros (m & Hm & E). apply pyval_eqb_eq in E. now subst.
  - intros H. exists n. split; [exact H | now apply pyval_eqb_eq].
Qed.

Lemma add_node_In (n : pyval) (g : t) : In n (nodes (add_node n g)).
Proof.
  unfold add_node. destruct (has_node n g) eqn:E.
  - now apply has_node_In.
  - simpl. apply in_or_app. right. now left.
Qed.

Lemma add_node_well_formed (n : pyval) (g : t) :
  well_formed g -> well_formed (add_node n g).
Proof.
  intros (Hn & He & Hends). unfold add_node. destruct (has_node n g) eqn:E.
  - exact (conj Hn (conj He Hends)).
  - split; [|split]; simpl.
    + apply NoDup_app; [exact Hn | repeat constructor; intros [] |].
      intros x Hx [<-|[]]. apply has_node_In in Hx. congruence.
    + exact He.
    + intros a b H. destruct (Hends a b H). split; apply in_or_app; now left.
Qed.

Lemma add_edge_well_formed (u v : pyval) (g : t) :
  well_formed g -> well_formed (add_edge u v g).
Proof.
  intros W. unfold add_edge.
  assert (W' : well_formed (add_node v (add_node u g)))
    by now apply add_node_well_formed, add_node_well_formed.
  assert (Hu : In u (nodes (add_node v (add_node u g)))).
  { destruct (add_node_extends v (add_node u g)) as [P _].
    apply (list_prefix_In _ _ _ P), add_node_In. }
  assert (Hv : In v (nodes (add_node v (add_node u g)))) by apply add_node_In.
  destruct (has_edge u v _) eqn:E; [exact W'|].
  destruct W' as (Hn & He & Hends). split; [|split]; simpl.
  - exact Hn.
  - apply NoDup_app; [exact He | repeat constructor; intros [] |].
    intros x Hx [<-|[]]. apply has_edge_In in Hx. congruence.
  - intros a b H. apply in_app_or in H. destruct H as [H|[H|[]]].
    + now apply Hends.
    + injection H as <- <-. now split.
Qed.

Lemma add_edge_ends (u v : pyval) (g : t) :
  In u (nodes (add_edge u v g)) /\ In v (nodes (add_edge u v g)).
Proof.
  assert (Hu : In u (nodes (add_node v (add_node u g)))).
  { destruct (add_node_extends v (add_node u g)) as [P _].
    apply (list_prefix_In _ _ _ P), add_node_In. }
  assert (Hv : In v (nodes (add_node v (add_node u g)))) by apply add_node_In.
  unfold add_edge. destruct (has_edge u v _); now split.
Qed.

(** X9.  Registering an entry a second time changes nothing: the node is
    there, the edge is there, and networkx keeps both as they are. *)
Theorem addToGraph_idempotent (u src : pyval) (s : state) :
  graph (snd ((addToGraph u src ;; addToGraph u src) s))
  = graph (snd (addToGraph u src s)).
Proof.
  unfold addToGraph, bind, update_graph. cbn [snd graph fst].
  destruct (add_edge_ends src u (add_node u (graph s))) as [Hs Hu].
  pose proof (add_edge_In src u (add_node u (graph s))) as He.
  generalize dependent (add_edge src u (add_node u (graph s))). intros g Hs Hu He.
  apply has_node_In in Hs, Hu. apply has_edge_In in He.
  assert (E1 : add_node u g = g) by (unfold add_node; now rewrite Hu).
  assert (E2 : add_node src g = g) by (unfold add_node; now rewrite Hs).
  rewrite E1. unfold add_edge. now rewrite E2, E1, He.
Qed.

End DiGraphMore.

Lemma well_formed_preorders :
  preorders (fun g g' => well_formed g -> well_formed g') (fun _ _ : string => True).
Proof. split; [auto|]. split; [auto|]. split; auto. Qed.

Lemma admits_well_formed (src u : pyval) :
  admits (fun g g' => well_formed g -> well_formed g') src u.
Proof.
  intros g W. now apply DiGraphMore.add_edge_well_formed,
                        DiGraphMore.add_node_well_formed.
Qed.

(** ** The operations of the crawler as wholes *)

Section Operations.

Variable net : World.
Variable Rg : DiGraph.t -> DiGraph.t -> Prop.
Variable Rt : string -> string -> Prop.
Hypothesis HR : preorders Rg Rt.
Hypothesis Rg_any : forall src u, admits Rg src u.
Hypothesis Rt_append : forall t text, Rt t (t ++ text)%string.

Lemma keeps_createGraph (layers : Z) : preserves (rel Rg Rt) (createGraph net layers).
Proof using HR Rg_any.
  unfold createGraph.
  apply keeps_try_except; [exact HR | | intros e].
  - apply keeps_bind; [exact HR | now apply keeps_getRandomURL | intros u].
    apply keeps_bind; [exact HR | now apply keeps_start | intros t].
    now apply keeps_print.
  - apply keeps_bind; [exact HR | now apply keeps_print | intros _].
    now apply keeps_print.
Qed.

Lemma keeps_testNodeIncrease (runs layers : Z) :
  preserves (rel Rg Rt) (testNodeIncrease net runs layers).
Proof using HR Rg_any Rt_append.
  unfold testNodeIncrease.
  apply keeps_bind; [exact HR | now apply keeps_resetGraph | intros _].
  apply keeps_bind; [exact HR | | intros _; now apply keeps_ret].
  apply keeps_for_each; [exact HR | intros i]. now apply keeps_run.
Qed.

End Operations.

Section GraphInvariants.

Variable net : World.

(** X10.  A crawl, [createGraph] and the growth test keep the graph well
    formed, whether they return or raise. *)
Theorem crawler_keeps_graph_well_formed (u : pyval) (runs layers : Z) (s : state) :
  well_formed (graph s) ->
  well_formed (graph (snd (start net u layers s)))
  /\ well_formed (graph (snd (createGraph net layers s)))
  /\ well_formed (graph (snd (testNodeIncrease net runs layers s))).
Proof.
  intros W. split; [|split].
  - apply (keeps_start net _ _ well_formed_preorders u layers
             (admits_well_formed u u) (fun i x => admits_well_formed _ _) s), W.
  - apply (keeps_createGraph net _ _ well_formed_preorders admits_well_formed
             layers s), W.
  - apply (keeps_testNodeIncrease net _ _ well_formed_preorders admits_well_formed
             (fun _ _ => I) runs layers s), W.
Qed.

(** X11.  No operation of the crawler removes anything from the graph in
    memory: after a crawl, [createGraph] or the growth test, returned or
    raised, the nodes of the graph begin with the nodes it had, every edge
    it had is an edge still, and it has at least as many nodes. *)
Theorem crawler_never_removes (u : pyval) (runs layers : Z) (s : state) :
  (retains (graph s) (graph (snd (start net u layers s)))
   /\ retains (graph s) (graph (snd (createGraph net layers s)))
   /\ retains (graph s) (graph (snd (testNodeIncrease net runs layers s))))
  /\ DiGraph.number_of_nodes (graph s)
     <= DiGraph.number_of_nodes (graph (snd (testNodeIncrease net runs layers s))).
Proof.
  assert (T : extends (graph s) (graph (snd (testNodeIncrease net runs layers s)))).
  { apply (keeps_testNodeIncrease net _ _ grows_preorders admits_extends
             string_prefix_app runs layers s). }
  split; [split; [|split]|].
  - apply extends_retains, (grows_start net u layers s).
  - apply extends_retains,
      (keeps_createGraph net _ _ grows_preorders admits_extends layers s).
  - apply extends_retains, T.
  - destruct T as [T _]. now apply list_prefix_length.
Qed.

End GraphInvariants.

(** ** Crawls *)

Section Crawls.

Variable net : World.

Lemma Eintrag_init_returns (u src : pyval) (s s' : state) (e : Eintrag) :
  Eintrag_init net u src s = (Ret e, s') ->
  exists p t, fetch net (requests s) u = Ret p /\ getTitle p = Ret t
              /\ e = mkEintrag (objects s) u src p t /\ s' = registered u src t s.
Proof.
  unfold Eintrag_init, bind, new_object, getHTMLCode, http_get, lift. simpl.
  destruct (fetch net (requests s) u) as [p|x] eqn:F; [|discriminate].
  destruct (getTitle p) as [t|x] eqn:T; [|discriminate].
  simpl. intros H. injection H as <- <-. now exists p, t.
Qed.

(** X12.  A crawl with a negative number of layers fetches and registers
    the seed and nothing else, and returns the seed entry itself instead
    of a list. *)
Theorem start_negative_layers (u : pyval) (layers : Z) (s : state)
        (p : page) (t : string) :
  (layers < 0)%Z ->
  fetch net (requests s) u = Ret p ->
  getTitle p = Ret t ->
  exists s',
    start net u layers s = (Ret (Leaf (mkEintrag (objects s) u u p t)), s')
    /\ graph s' = DiGraph.add_edge u u (DiGraph.add_node u (graph s))
    /\ requests s' = S (requests s).
Proof.
  intros Hl Hf Ht.
  rewrite (start_after_init net u layers s _ _ (Eintrag_init_ok net u u s p t Hf Ht)).
  unfold index. replace (Z.to_nat (layers + 1)) with 0 by lia.
  eexists. split; [reflexivity|]. now split.
Qed.

(** The loop of [index] at the last layer: one entry per link, fetched by
    the next request, registered with the parent object as source, and
    not opened. *)
Lemma last_layer_loop (self : Eintrag) (links : list string) (acc leaves : list tree)
      (s s' : state) :
  for_each (child net 0 self) links acc s = (Ret leaves, s') ->
  exists children,
    built_for net (requests s) (objects s) (Obj (oid self)) links children
    /\ leaves = acc ++ map Leaf children
    /\ s' = mkState (register_links (Obj (oid self)) links (graph s))
                    (requests s + length links) (objects s + length links)
                    (console s ++ map (fun c => "Reached " ++ title c)%string children)
                    (graph_xml s) (testNodeIncrease_txt s).
Proof.
  revert acc s. induction links as [|l links IH]; intros acc s H; simpl in H.
  - injection H as <- <-. exists []. cbn [built_for map length register_links fold_left].
    rewrite !app_nil_r, !Nat.add_0_r. split; [exact I|]. split; [reflexivity|].
    now destruct s.
  - apply bind_ret_inv in H. destruct H as (y & s1 & Hy & H).
    unfold child in Hy. apply bind_ret_inv in Hy. destruct Hy as (nextE & s1' & Hn & Hy).
    simpl in Hy. injection Hy as <- <-.
    destruct (Eintrag_init_returns _ _ _ _ _ Hn) as (p & t & Hp & Ht & -> & ->).
    destruct (IH _ _ H) as (children & Hb & -> & ->).
    exists (mkEintrag (objects s) (Str l) (Obj (oid self)) p t :: children).
    split; [|split].
    + cbn [built_for]. split; [now exists p, t | exact Hb].
    + now rewrite <- app_assoc.
    + cbn [registered graph requests objects console graph_xml testNodeIncrease_txt
           register_links fold_left map length title].
      rewrite <- app_assoc, <- !Nat.add_succ_comm. reflexivity.
Qed.

(** X13.  A depth-0 crawl that returns has fetched the seed by its first
    request and each link that [getLinks] returns for the seed page by
    the next requests, one per link and in their order, whether or not
    the graph knew them.  It returns the entries of the links, each a new
    object with the seed's object as its source, and leaves the graph
    with the seed and then each link registered, the seed with itself as
    source and the links with the seed's object; it prints a line for
    every entry.  The links of the linked pages are not followed. *)
Theorem start_depth0_shape (u : pyval) (s s' : state) (t : tree) :
  start net u 0 s = (Ret t, s') ->
  exists p ti links children,
    fetch net (requests s) u = Ret p
    /\ getTitle p = Ret ti
    /\ LinkFilter.getLinks (hrefs p) = Ret links
    /\ built_for net (S (requests s)) (S (objects s)) (Obj (objects s)) links children
    /\ t = Leaves (map Leaf children)
    /\ s' = mkState
              (register_links (Obj (objects s)) links
                 (DiGraph.add_edge u u (DiGraph.add_node u (graph s))))
              (requests s + 1 + length links) (objects s + 1 + length links)
              (console s
               ++ [("Reached " ++ ti)%string; ("Start at: " ++ ti)%string]
               ++ map (fun c => "Reached " ++ title c)%string children
               ++ ["Finished"])
              (graph_xml s) (testNodeIncrease_txt s).
Proof.
  intros H. unfold start in H.
  apply bind_ret_inv in H. destruct H as (seedE & s1 & Hi & H).
  apply bind_ret_inv in H. destruct H as ([] & s2 & Hp & H).
  injection Hp as <-.
  apply bind_ret_inv in H. destruct H as (r & s3 & Hx & H).
  apply bind_ret_inv in H. destruct H as ([] & s4 & Hp & H).
  injection Hp as <-. injection H as <- <-.
  unfold index in Hx. change (Z.to_nat (0 + 1)) with 1 in Hx. cbn [index_at] in Hx.
  apply bind_ret_inv in Hx. destruct Hx as (links & s2' & Hl & Hx).
  unfold lift in Hl. injection Hl as Hl <-.
  apply bind_ret_inv in Hx. destruct Hx as (leaves & s3' & Hloop & Hx).
  injection Hx as <- <-.
  fold (child net 0 seedE) in Hloop.
  destruct (Eintrag_init_returns _ _ _ _ _ Hi) as (p & ti & Hf & Ht & -> & ->).
  destruct (last_layer_loop _ _ _ _ _ _ Hloop) as (children & Hb & -> & ->).
  exists p, ti, links, children.
  split; [exact Hf|]. split; [exact Ht|]. split; [exact Hl|].
  split; [exact Hb|]. split; [reflexivity|].
  cbn [print snd registered graph requests objects console graph_xml
       testNodeIncrease_txt oid title].
  f_equal; [lia | lia | now rewrite <- !app_assoc].
Qed.

(** X14.  [createGraph] never raises: whatever fails while the URL is
    drawn or the crawl runs, it returns, and the last thing it printed is
    the line of success or the notice of the error followed by the
    error. *)
Theorem createGraph_never_raises (layers : Z) (s : state) :
  exists s', createGraph net layers s = (Ret tt, s')
    /\ ((exists c, console s' = c ++ ["SUCCESSFULLY FINISHED RUN."])
        \/ exists c e, console s' = c ++ ["AN ERROR HAS OCCURED."; str_exn e]).
Proof.
  unfold createGraph, try_except.
  destruct ((u <- getRandomURL net;; start net (Str u) layers;;
             print "SUCCESSFULLY FINISHED RUN.") s) as [[[]|e] s1] eqn:E.
  - exists s1. split; [reflexivity|]. left.
    apply bind_ret_inv in E. destruct E as (u & s2 & _ & E).
    apply bind_ret_inv in E. destruct E as (t & s3 & _ & E).
    injection E as <-. now eexists.
  - eexists. split; [reflexivity|]. right. exists (console s1), e.
    cbn [bind print snd console]. now rewrite <- app_assoc.
Qed.

(** X15.  The growth test has no handler: when drawing the first seed or
    crawling it raises, the test raises the same exception after the
    reset and before anything is written to the log. *)
Theorem testNodeIncrease_propagates (runs layers : Z) (s s1 : state) (e : exn) :
  (0 < runs)%Z ->
  (u <- getRandomURL net ;; start net (Str u) 0) (snd (resetGraph s)) = (Raise e, s1) ->
  testNodeIncrease net runs layers s = (Raise e, s1)
  /\ testNodeIncrease_txt s1 = testNodeIncrease_txt s.
Proof.
  intros Hr H.
  destruct (resetGraph_spec s) as (R1 & _ & _ & R4).
  split.
  - unfold testNodeIncrease.
    erewrite bind_ret_eq
      by (rewrite (surjective_pairing (resetGraph s)), R1; reflexivity).
    apply bind_raise_eq.
    unfold range. replace (Z.to_nat runs) with (S (Z.to_nat runs - 1)) by lia.
    cbn [seq for_each]. apply bind_raise_eq. unfold run.
    apply bind_raise_inv in H. destruct H as [H|(u & s2 & Hu & H)].
    + now apply bind_raise_eq.
    + erewrite bind_ret_eq by exact Hu. now apply bind_raise_eq.
  - rewrite <- R4.
    assert (K : preserves same_log (u <- getRandomURL net ;; start net (Str u) 0)).
    { apply keeps_bind; [exact same_log_preorders | apply same_log_getRandomURL |].
      intros u. apply same_log_start. }
    specialize (K (snd (resetGraph s))). rewrite H in K. now apply same_log_eq in K.
Qed.

(** X16.  With no run to do, the growth test is its reset: it removes
    [graph.xml], or reports that it could not, and sends no request. *)
Theorem testNodeIncrease_no_runs (runs layers : Z) (s : state) :
  (runs <= 0)%Z ->
  testNodeIncrease net runs layers s = (Ret tt, snd (resetGraph s)).
Proof.
  intros Hr. destruct (resetGraph_spec s) as (R1 & _).
  unfold testNodeIncrease.
  erewrite bind_ret_eq
    by (rewrite (surjective_pairing (resetGraph s)), R1; reflexivity).
  unfold range. replace (Z.to_nat runs) with 0 by lia. reflexivity.
Qed.

Lemma filter_length_In {A} (f : A -> bool) (l : list A) (x : A) :
  In x l -> f x = true -> 1 <= length (filter f l).
Proof.
  induction l as [|y l IH]; simpl; [tauto|].
  intros [->|H] Hf.
  - rewrite Hf. simpl. lia.
  - destruct (f y); simpl; [lia | now apply IH].
Qed.

(** X17.  The seed of a crawl is no dead end: once its entry is built,
    the edge from the seed to itself gives it degree 2 or more in every
    later graph, so the growth test never restarts a crawl from it. *)
Theorem seed_is_no_dead_end (u : pyval) (s s1 : state) (e : Eintrag) (g : DiGraph.t) :
  Eintrag_init net u u s = (Ret e, s1) ->
  extends (graph s1) g ->
  2 <= DiGraph.degree u g /\ ~ In u (endList g).
Proof.
  intros Hi [_ He].
  assert (Hin : In (u, u) (DiGraph.edges g)).
  { apply (list_prefix_In _ _ _ He).
    apply Eintrag_init_inv in Hi. destruct Hi as (_ & _ & ->).
    apply DiGraphFacts.add_edge_In. }
  assert (E : pyval_eqb u u = true) by now apply DiGraphFacts.pyval_eqb_eq.
  assert (D : 2 <= DiGraph.degree u g).
  { unfold DiGraph.degree, DiGraph.in_degree, DiGraph.out_degree.
    pose proof (filter_length_In (fun e => pyval_eqb u (snd e)) _ _ Hin E).
    pose proof (filter_length_In (fun e => pyval_eqb u (fst e)) _ _ Hin E). lia. }
  split; [exact D|]. unfold endList. rewrite filter_In. intros [_ H].
  apply Nat.eqb_eq in H. lia.
Qed.

End Crawls.

(** ** Where the edges lead *)

Lemma preserves_for_each_In (R : state -> state -> Prop) {A B : Type}
      (body : A -> M B) (l : list A) (acc : list B) :
  (forall s, R s s) -> (forall a b c, R a b -> R b c -> R a c) ->
  (forall x, In x l -> preserves R (body x)) ->
  preserves R (for_each body l acc).
Proof.
  intros Hrefl Htrans. revert acc. induction l as [|x l IH]; intros acc Hb; simpl.
  - now apply preserves_ret.
  - apply preserves_bind; [exact Htrans | apply Hb; now left |].
    intros y. apply IH. intros z Hz. apply Hb. now right.
Qed.

Section Provenance.

Variable net : World.

Lemma for_each_snoc {A B} (body : A -> M B) (pre : list A) (x : A)
      (acc0 acc : list B) (y : B) (s s1 s2 : state) :
  for_each body pre acc0 s = (Ret acc, s1) ->
  body x s1 = (Ret y, s2) ->
  for_each body (pre ++ [x]) acc0 s = (Ret (acc ++ [y]), s2).
Proof.
  revert acc0 s. induction pre as [|p pre IH]; intros acc0 s Hpre Hx; simpl in *.
  - injection Hpre as <- <-. erewrite bind_ret_eq by exact Hx. reflexivity.
  - apply bind_ret_inv in Hpre. destruct Hpre as (y0 & s0 & Hy & Hrest).
    erewrite bind_ret_eq by exact Hy. now apply IH.
Qed.

(** An entry built below another is the object created in the state in
    which its constructor was called, and its page is the answer to the
    request sent there for its URL. *)
Lemma built_below_entry (depth : nat) (self c : Eintrag) (s sc : state) :
  built_below net depth self s c sc ->
  oid c = objects sc /\ fetch net (requests sc) (url c) = Ret (html c).
Proof.
  induction 1 as [depth self c pre post l acc s s1 s2 Hl Hpre Hn
                 |depth self c d pre post l acc s s1 s2 sd Hl Hpre Hn _ IH];
    [|exact IH].
  destruct (Eintrag_init_returns net _ _ _ _ _ Hn) as (p & t & Hp & _ & -> & _).
  now split.
Qed.

(** The edges after the subtree of one link is built, or was being built
    when it raised. *)
Lemma child_edges (d : nat) (self c : Eintrag) (pre post : list string) (l : string)
      (acc : list tree) (s s1 s2 : state) (e : pyval * pyval) :
  (forall c sc e, In e (DiGraph.edges (graph (snd (index_at net d c sc)))) ->
                  In e (DiGraph.edges (graph sc)) \/ subtree_edge net d c sc e) ->
  getLinks self = Ret (pre ++ l :: post) ->
  for_each (child net d self) pre [] s = (Ret acc, s1) ->
  Eintrag_init net (Str l) (Obj (oid self)) s1 = (Ret c, s2) ->
  In e (DiGraph.edges (graph (snd (index_at net d c s2)))) ->
  In e (DiGraph.edges (graph s1)) \/ subtree_edge net (S d) self s e.
Proof.
  intros IH Hl Hpre Hn He.
  destruct (IH c s2 e He) as [H|[H|(dd & sd & Hb & H)]].
  - apply Eintrag_init_inv in Hn. destruct Hn as (_ & _ & Hg). rewrite Hg in H.
    destruct (DiGraphFacts.add_edge_edges (Obj (oid self)) (Str l)
                (DiGraph.add_node (Str l) (graph s1))) as [E|E];
      rewrite E, DiGraphFacts.add_node_edges in H; [now left|].
    apply in_app_or in H. destruct H as [H|[<-|[]]]; [now left|].
    right. left. exists (pre ++ l :: post), l.
    split; [exact Hl|]. split; [|reflexivity].
    apply in_or_app. right. now left.
  - right. right. exists c, s1. split; [|exact H].
    eapply built_child; eassumption.
  - right. right. exists dd, sd. split; [|exact H].
    eapply built_deeper; eassumption.
Qed.

Lemma child_loop_edges (d : nat) (self : Eintrag) (links : list string) (s : state) :
  (forall c sc e, In e (DiGraph.edges (graph (snd (index_at net d c sc)))) ->
                  In e (DiGraph.edges (graph sc)) \/ subtree_edge net d c sc e) ->
  getLinks self = Ret links ->
  forall (post pre : list string) (acc : list tree) (s1 : state),
    links = pre ++ post ->
    for_each (child net d self) pre [] s = (Ret acc, s1) ->
    forall e,
      In e (DiGraph.edges (graph (snd (for_each (child net d self) post acc s1)))) ->
      In e (DiGraph.edges (graph s1)) \/ subtree_edge net (S d) self s e.
Proof.
  intros IH Hl. induction post as [|l post IHp]; intros pre acc s1 Hlinks Hpre e He.
  - now left.
  - rewrite Hlinks in Hl. cbn [for_each] in He.
    destruct (Eintrag_init net (Str l) (Obj (oid self)) s1) as [[c|x] s2] eqn:Hn.
    + assert (Hbody : child net d self l s1 = index_at net d c s2)
        by (unfold child; now erewrite bind_ret_eq by exact Hn).
      pose proof (child_edges d self c pre post l acc s s1 s2) as K.
      destruct (index_at net d c s2) as [[y|x] s3] eqn:Hix.
      * erewrite bind_ret_eq in He by exact Hbody.
        apply (IHp (pre ++ [l])) in He.
        -- destruct He as [He|He]; [|now right].
           now apply (K e IH Hl Hpre Hn).
        -- now rewrite <- app_assoc.
        -- now apply for_each_snoc with (s1 := s1).
      * erewrite bind_raise_eq in He by exact Hbody.
        now apply (K e IH Hl Hpre Hn).
    + erewrite bind_raise_eq in He
        by (unfold child; apply bind_raise_eq; exact Hn).
      apply Eintrag_init_raise_inv in Hn. destruct Hn as [-> _]. now left.
Qed.

(** Every edge that opening layers below an entry adds is a link edge of
    that entry or of an entry built below it. *)
Lemma index_at_edges (depth : nat) :
  forall (self : Eintrag) (s : state) (e : pyval * pyval),
    In e (DiGraph.edges (graph (snd (index_at net depth self s)))) ->
    In e (DiGraph.edges (graph s)) \/ subtree_edge net depth self s e.
Proof.
  induction depth as [|d IH]; intros self s e He.
  - now left.
  - cbn [index_at] in He. unfold bind at 1, lift at 1 in He.
    destruct (getLinks self) as [links|x] eqn:Hl; [|now left].
    fold (child net d self) in He.
    assert (He' : In e (DiGraph.edges
                          (graph (snd (for_each (child net d self) links [] s))))).
    { unfold bind in He.
      destruct (for_each (child net d self) links [] s) as [[leaves|x] s']; exact He. }
    exact (child_loop_edges d self links s IH Hl links [] [] s eq_refl eq_refl e He').
Qed.

(** X18.  Every edge a crawl adds, but the edge from the seed to itself,
    is a link edge of an entry of that crawl: it runs from the object of
    an entry that the crawl built, the seed's or one below it, to a URL
    that [getLinks] returns for the page of that entry, and that page is
    the answer to the request the constructor of the entry sent for its
    URL. *)
Theorem crawl_edges_follow_links (u : pyval) (layers : Z) (s : state)
        (e : pyval * pyval) :
  In e (DiGraph.edges (graph (snd (start net u layers s)))) ->
  In e (DiGraph.edges (graph s)) \/ e = (u, u)
  \/ exists self sd,
       crawl_entry net u layers s self sd
       /\ oid self = objects sd
       /\ fetch net (requests sd) (url self) = Ret (html self)
       /\ link_edge self e.
Proof.
  destruct (Eintrag_init net u u s) as [[seedE|x] s1] eqn:Hi.
  - rewrite (start_after_init net u layers s s1 seedE Hi). unfold index.
    intros He.
    assert (He' : In e (DiGraph.edges
                          (graph (snd (index_at net (Z.to_nat (layers + 1)) seedE
                                         (snd (print ("Start at: " ++ title seedE) s1))))))).
    { destruct (index_at net _ seedE _) as [[r|x] s2]; exact He. }
    clear He. apply index_at_edges in He'.
    destruct He' as [H|[H|(d & sd & Hb & H)]].
    + cbn [print snd graph] in H.
      destruct (Eintrag_init_inv net _ _ _ _ _ Hi) as (_ & _ & Hg). rewrite Hg in H.
      destruct (DiGraphFacts.add_edge_edges u u (DiGraph.add_node u (graph s)))
        as [E|E]; rewrite E, DiGraphFacts.add_node_edges in H; [now left|].
      apply in_app_or in H. destruct H as [H|[<-|[]]]; [now left | right; now left].
    + right. right. exists seedE, s.
      split; [exists seedE, s1; split; [exact Hi | now left]|].
      destruct (Eintrag_init_returns net _ _ _ _ _ Hi) as (p & t & Hp & _ & -> & _).
      now split.
    + right. right. exists d, sd.
      split; [exists seedE, s1; split; [exact Hi | now right]|].
      destruct (built_below_entry _ _ _ _ _ Hb) as [Ho Hf]. now split.
  - unfold start. erewrite bind_raise_eq by exact Hi.
    apply Eintrag_init_raise_inv in Hi. destruct Hi as [-> _]. intros H. now left.
Qed.

End Provenance.

(** ** The log of the growth test *)

Section GrowthLog.

Variable net : World.

Local Abbreviation nn := (fun s : state => DiGraph.number_of_nodes (graph s)).

Lemma last_cons_default {A} (x : A) (l : list A) (d d' : A) :
  last (x :: l) d = last (x :: l) d'.
Proof. revert x. induction l as [|y l IH]; intros x; [reflexivity | apply IH]. Qed.

Lemma last_app_cons {A} (a : list A) (x : A) (b : list A) (d : A) :
  last (a ++ x :: b) d = last (x :: b) (last a d).
Proof.
  induction a as [|y a IH]; [apply last_cons_default|].
  destruct a as [|z a]; [exact (last_cons_default x b d y) | exact IH].
Qed.

Lemma ascending_app (lo : nat) (a b : list nat) :
  ascending lo a -> ascending (last a lo) b -> ascending lo (a ++ b).
Proof.
  revert lo. induction a as [|x a IH]; intros lo Ha Hb; simpl in *; [exact Hb|].
  destruct Ha as [H1 H2]. split; [exact H1|]. apply IH; [exact H2|].
  destruct a as [|y a]; [exact Hb|].
  now rewrite (last_cons_default y a x lo).
Qed.

Lemma for_each_cons_ret {A B} (body : A -> M B) (x : A) (l : list A)
      (acc r : list B) (s s' : state) :
  for_each body (x :: l) acc s = (Ret r, s') ->
  exists y s1, body x s = (Ret y, s1) /\ for_each body l (acc ++ [y]) s1 = (Ret r, s').
Proof. simpl. apply bind_ret_inv. Qed.

(** One expansion that returns appends one record, without a newline,
    with the number of nodes after it, which is no less than before. *)
Lemma expand_returns (i c : nat) (s s' : state) :
  expand net i c s = (Ret tt, s') ->
  testNodeIncrease_txt s' = (testNodeIncrease_txt s ++ record i c (nn s'))%string
  /\ nn s <= nn s'.
Proof.
  intros H. unfold expand in H.
  apply bind_ret_inv in H. destruct H as (g & s1 & Hg & H). injection Hg as <- <-.
  apply bind_ret_inv in H. destruct H as (ts & s2 & Hl & H).
  apply bind_ret_inv in H. destruct H as (g2 & s3 & Hg & H). injection Hg as <- <-.
  apply bind_ret_inv in H. destruct H as ([] & s4 & Hp & H).
  injection Hp as <-. injection H as <-.
  pose proof (same_log_for_each_start net (endList (graph s)) [] s) as K1.
  pose proof (grows_for_each_start net (endList (graph s)) [] s) as K2.
  rewrite Hl in K1, K2. apply same_log_eq in K1. destruct K2 as [[K2 _] _].
  cbn [snd] in K1, K2. cbn [testNodeIncrease_txt graph].
  split; [now rewrite K1 | now apply list_prefix_length].
Qed.

Lemma expansions_return (i n : nat) :
  forall (c : nat) (acc r : list unit) (s s' : state),
    for_each (expand net i) (seq c n) acc s = (Ret r, s') ->
    exists counts,
      length counts = n
      /\ testNodeIncrease_txt s'
         = (testNodeIncrease_txt s ++ expansion_records i c counts)%string
      /\ ascending (nn s) counts
      /\ nn s' = last counts (nn s).
Proof.
  induction n as [|n IH]; intros c acc r s s' H.
  - simpl in H. injection H as _ <-. exists []. simpl.
    now rewrite string_app_nil_r.
  - cbn [seq] in H. apply for_each_cons_ret in H.
    destruct H as ([] & s1 & H1 & H). apply expand_returns in H1.
    destruct H1 as [T1 N1]. destruct (IH _ _ _ _ _ H) as (counts & L & T & A & E).
    exists (nn s1 :: counts). split; [simpl; now rewrite L|].
    split; [rewrite T, T1; cbn [expansion_records]; now rewrite !string_app_assoc|].
    split; [now split|]. rewrite E.
    destruct counts as [|m ms]; [reflexivity | exact (last_cons_default m ms _ _)].
Qed.

(** One run that returns. *)
Lemma run_returns (layers : Z) (i : nat) (s s' : state) :
  run net layers i s = (Ret tt, s') ->
  exists r,
    length (snd r) = Z.to_nat layers
    /\ testNodeIncrease_txt s' = (testNodeIncrease_txt s ++ run_records i r)%string
    /\ ascending (nn s) (counts_of r)
    /\ nn s' = last (counts_of r) (nn s).
Proof.
  intros H0. pose proof H0 as H. unfold run in H0.
  apply bind_ret_inv in H0. destruct H0 as (u & s1 & Hu & H0).
  apply bind_ret_inv in H0. destruct H0 as (t & s2 & Hs & _).
  rewrite (run_after_seed net layers i s s1 s2 u t Hu Hs) in H.
  apply bind_ret_inv in H. destruct H as (l & s3 & H & Hr). injection Hr as <-.
  destruct (expansions_return _ _ _ _ _ _ _ H) as (counts & L & T & A & E).
  assert (G : nn s <= nn s2).
  { pose proof (grows_getRandomURL net s) as [[K1 _] _].
    pose proof (grows_start net (Str u) 0 s1) as [[K2 _] _].
    rewrite Hu in K1. rewrite Hs in K2.
    apply list_prefix_length. eapply list_prefix_trans; eassumption. }
  assert (L2 : testNodeIncrease_txt s2 = testNodeIncrease_txt s).
  { pose proof (same_log_getRandomURL net s) as K1.
    pose proof (same_log_start net (Str u) 0 s1) as K2.
    rewrite Hu in K1. rewrite Hs in K2. apply same_log_eq in K1, K2.
    simpl in K1, K2. congruence. }
  assert (N : nn (seeded i s2) = nn s2) by reflexivity.
  exists (nn s2, counts). cbn [fst snd counts_of]. split; [exact L|].
  split; [|split].
  - rewrite T, seeded_log, L2. unfold run_records. cbn [fst snd].
    now rewrite !string_app_assoc.
  - split; [exact G|]. now rewrite <- N.
  - rewrite E, N.
    destruct counts as [|m ms]; [reflexivity | exact (last_cons_default m ms _ _)].
Qed.

Lemma runs_return (layers : Z) (n : nat) :
  forall (i : nat) (acc r : list unit) (s s' : state),
    for_each (run net layers) (seq i n) acc s = (Ret r, s') ->
    exists rs,
      length rs = n
      /\ Forall (fun r => length (snd r) = Z.to_nat layers) rs
      /\ testNodeIncrease_txt s' = (testNodeIncrease_txt s ++ test_records i rs)%string
      /\ ascending (nn s) (concat (map counts_of rs))
      /\ nn s' = last (concat (map counts_of rs)) (nn s).
Proof.
  induction n as [|n IH]; intros i acc r s s' H.
  - simpl in H. injection H as _ <-. exists []. simpl.
    rewrite string_app_nil_r. repeat split. constructor.
  - cbn [seq] in H. apply for_each_cons_ret in H.
    destruct H as ([] & s1 & H1 & H). apply run_returns in H1.
    destruct H1 as (r1 & L1 & T1 & A1 & E1).
    destruct (IH _ _ _ _ _ H) as (rs & L & F & T & A & E).
    exists (r1 :: rs). split; [simpl; now rewrite L|].
    split; [now constructor|].
    split; [rewrite T, T1; cbn [test_records]; now rewrite !string_app_assoc|].
    cbn [map concat]. split.
    + apply ascending_app; [exact A1 | now rewrite <- E1].
    + rewrite E, E1. unfold counts_of at 2. cbn [app].
      destruct (concat (map counts_of rs)) as [|c cs]; [now rewrite app_nil_r|].
      change (fst r1 :: snd r1 ++ c :: cs) with ((fst r1 :: snd r1) ++ c :: cs).
      now rewrite last_app_cons.
Qed.

(** X19.  A growth test that returns has appended to the log, run after
    run, one record of iteration 0 ended by a newline and then one record
    per layer, numbered from 0 and not ended by a newline; the counts
    never go down, from the number of nodes before the test on. *)
Theorem growth_log_records (runs layers : Z) (s s' : state) :
  testNodeIncrease net runs layers s = (Ret tt, s') ->
  exists rs,
    length rs = Z.to_nat runs
    /\ Forall (fun r => length (snd r) = Z.to_nat layers) rs
    /\ testNodeIncrease_txt s'
       = (testNodeIncrease_txt s ++ test_records 0 rs)%string
    /\ ascending (DiGraph.number_of_nodes (graph s)) (concat (map counts_of rs)).
Proof.
  intros H. unfold testNodeIncrease in H.
  destruct (resetGraph_spec s) as (R1 & R2 & _ & R4).
  erewrite bind_ret_eq in H
    by (rewrite (surjective_pairing (resetGraph s)), R1; reflexivity).
  apply bind_ret_inv in H. destruct H as (l & s1 & H & Hr). injection Hr as <-.
  destruct (runs_return _ _ _ _ _ _ _ H) as (rs & L & F & T & A & _).
  exists rs. rewrite R4 in T. rewrite R2 in A. auto.
Qed.

End GrowthLog.

Module ReplaceFacts.
Import PyStr.

Lemma prefix_refl (s : string) : String.prefix s s = true.
Proof.
  induction s as [|c s IH]; simpl; [reflexivity|].
  destruct (ascii_dec c c) as [_|N]; [exact IH | now elim N].
Qed.

Lemma replace_from_skip_all (old new s : string) (k : nat) :
  String.length s <= k -> replace_from old new s k = "".
Proof.
  revert k. induction s as [|c s IH]; intros k H; simpl; [reflexivity|].
  simpl in H. destruct k as [|k]; [lia|]. apply IH. lia.
Qed.

(** [(name + old).replace(old, "")] is [name] when [old] matches nowhere
    before the end of [name]. *)
Lemma replace_suffix (old name : string) :
  old <> "" ->
  matches_before old (name ++ old) (String.length name) = false ->
  replace old "" (name ++ old) = name.
Proof.
  intros N. unfold replace. induction name as [|c name IH]; intros H.
  - destruct old as [|c old]; [now elim N|]. cbn [append replace_from].
    rewrite prefix_refl. cbn [append String.length].
    apply replace_from_skip_all. lia.
  - cbn [append String.length matches_before] in H.
    apply orb_false_elim in H. destruct H as [H1 H2].
    cbn [append replace_from]. rewrite H1. now rewrite (IH H2).
Qed.

End ReplaceFacts.

Section MoreCrawls.

Variable net : World.

(** X20.  The URL [getRandomURL] returns for a random page whose title is
    a name followed by the site suffix is the article prefix followed by
    the quoted name, when the suffix occurs in the title at its end
    only. *)
Theorem getRandomURL_of_title (s : state) (p : page) (name : string) :
  fetch net (requests s) (Str random_page) = Ret p ->
  title_tag p = Some (name ++ " – Wikipedia")%string ->
  matches_before " – Wikipedia" (name ++ " – Wikipedia") (String.length name) = false ->
  fst (getRandomURL net s)
  = Ret ("http://de.wikipedia.org/wiki/" ++ quote net name)%string.
Proof.
  intros Hf Ht Hm. unfold getRandomURL, bind, http_get, lift, find_title_text.
  rewrite Hf, Ht. cbn [fst ret].
  now rewrite (ReplaceFacts.replace_suffix " – Wikipedia" name ltac:(discriminate) Hm).
Qed.

(** The loop of [index] at the last layer returns when every link can be
    fetched and has a title, at whatever request. *)
Lemma last_layer_loop_returns (self : Eintrag) (links : list string) :
  (forall k l, In l links ->
     exists p t, fetch net k (Str l) = Ret p /\ getTitle p = Ret t) ->
  forall (acc : list tree) (s : state),
    exists leaves s', for_each (child net 0 self) links acc s = (Ret leaves, s').
Proof.
  induction links as [|l links IH]; intros H acc s; simpl.
  - now eexists; eexists.
  - destruct (H (requests s) l (or_introl eq_refl)) as (p & t & Hp & Ht).
    unfold child at 1.
    erewrite bind_ret_eq
      by (erewrite bind_ret_eq by (apply Eintrag_init_ok; eassumption); reflexivity).
    apply IH. intros k x Hx. apply H. now right.
Qed.

(** X21.  A depth-0 crawl returns whenever the seed and the pages of its
    links can be fetched and have a title and [getLinks] returns for the
    seed page: the anchors of the linked pages are not looked at, so
    nothing in them can make the crawl raise. *)
Theorem start_depth0_returns (u : pyval) (s : state) (p : page) (t : string)
        (links : list string) :
  fetch net (requests s) u = Ret p ->
  getTitle p = Ret t ->
  LinkFilter.getLinks (hrefs p) = Ret links ->
  (forall k l, In l links ->
     exists q tq, fetch net k (Str l) = Ret q /\ getTitle q = Ret tq) ->
  exists r s', start net u 0 s = (Ret r, s').
Proof.
  intros Hf Ht Hl Hc.
  rewrite (start_after_init net u 0 s _ _ (Eintrag_init_ok net u u s p t Hf Ht)).
  set (seedE := mkEintrag (objects s) u u p t).
  set (s1 := snd (print ("Start at: " ++ title seedE) (registered u u t s))).
  destruct (last_layer_loop_returns seedE links Hc [] s1) as (leaves & s' & Hloop).
  assert (I : index net seedE 0 s1 = (Ret (Leaves leaves), s')).
  { unfold index. change (Z.to_nat (0 + 1)) with 1. cbn [index_at].
    erewrite bind_ret_eq by (unfold lift, getLinks; cbn [html seedE]; rewrite Hl;
                             reflexivity).
    erewrite bind_ret_eq by exact Hloop. reflexivity. }
  rewrite I. now eexists; eexists.
Qed.

End MoreCrawls.

(** ** Entry objects as nodes *)

Section Objects.

Variable net : World.

Lemma stays_fresh_refl (n0 : nat) (s : state) : stays_fresh n0 s s.
Proof. intros _ F. now split. Qed.

Lemma stays_fresh_trans (n0 : nat) (a b c : state) :
  stays_fresh n0 a b -> stays_fresh n0 b c -> stays_fresh n0 a c.
Proof.
  intros Hab Hbc Hn F. destruct (Hab Hn F) as [O1 F1].
  destruct (Hbc ltac:(lia) F1) as [O2 F2]. split; [lia | exact F2].
Qed.

Lemma stays_fresh_later (n0 n1 : nat) (s s' : state) :
  (n0 <= objects s -> n1 <= objects s) ->
  stays_fresh n1 s s' -> stays_fresh n0 s s'.
Proof. intros H K Hn. apply K, H, Hn. Qed.

(** Statements that leave the graph and the objects alone. *)
Lemma stays_fresh_untouched {A} (n0 : nat) (m : M A) :
  (forall s, graph (snd (m s)) = graph s /\ objects (snd (m s)) = objects s) ->
  preserves (stays_fresh n0) m.
Proof.
  intros H s _ F. destruct (H s) as [Hg Ho]. split; [lia|].
  intros i Hi. rewrite Hg in Hi. rewrite Ho. now apply F.
Qed.

Lemma add_node_nodes (n m : pyval) (g : DiGraph.t) :
  In m (DiGraph.nodes (DiGraph.add_node n g)) -> In m (DiGraph.nodes g) \/ m = n.
Proof.
  unfold DiGraph.add_node. destruct (DiGraph.has_node n g); [now left|].
  simpl. intros H. apply in_app_or in H. destruct H as [H|[<-|[]]]; auto.
Qed.

Lemma add_edge_nodes (u v m : pyval) (g : DiGraph.t) :
  In m (DiGraph.nodes (DiGraph.add_edge u v g)) ->
  In m (DiGraph.nodes g) \/ m = u \/ m = v.
Proof.
  unfold DiGraph.add_edge.
  assert (K : In m (DiGraph.nodes (DiGraph.add_node v (DiGraph.add_node u g))) ->
              In m (DiGraph.nodes g) \/ m = u \/ m = v).
  { intros H. apply add_node_nodes in H. destruct H as [H|H]; [|auto].
    apply add_node_nodes in H. tauto. }
  destruct (DiGraph.has_edge u v _); exact K.
Qed.

Lemma Eintrag_init_stays_fresh (u src : pyval) (n0 : nat) :
  seed_exists u n0 -> seed_exists src n0 ->
  preserves (stays_fresh n0) (Eintrag_init net u src).
Proof.
  intros Hu Hsrc s Hn F.
  destruct (Eintrag_init net u src s) as [[e|x] s'] eqn:Hi; cbn [snd].
  - destruct (Eintrag_init_returns net _ _ _ _ _ Hi) as (p & t & _ & _ & _ & ->).
    split; [cbn [registered objects]; lia|]. intros i Hi'.
    cbn [registered objects graph] in *.
    apply add_edge_nodes in Hi'. destruct Hi' as [H|[H|H]].
    + apply add_node_nodes in H. destruct H as [H|H].
      * specialize (F i H). lia.
      * subst u. simpl in Hu. lia.
    + subst src. simpl in Hsrc. lia.
    + subst u. simpl in Hu. lia.
  - apply Eintrag_init_raise_inv in Hi. destruct Hi as [-> _].
    split; [cbn [failed_request objects]; lia|].
    intros i Hi'. specialize (F i Hi'). cbn [failed_request objects]. lia.
Qed.

Lemma index_at_stays_fresh (depth : nat) :
  forall self : Eintrag,
    preserves (stays_fresh (S (oid self))) (index_at net depth self).
Proof.
  induction depth as [|d IH]; intros self.
  - intros s. apply stays_fresh_refl.
  - cbn [index_at]. intros s. unfold bind at 1, lift at 1.
    destruct (getLinks self) as [links|x]; [|apply stays_fresh_refl].
    apply (preserves_bind _ (stays_fresh_trans (S (oid self))));
      [|intros leaves s0; apply stays_fresh_refl].
    apply preserves_for_each;
      [apply stays_fresh_refl | apply stays_fresh_trans |].
    intros l s1. unfold bind.
    destruct (Eintrag_init net (Str l) (Obj (oid self)) s1) as [[nextE|x] s2] eqn:Hi.
    + pose proof (Eintrag_init_stays_fresh (Str l) (Obj (oid self)) (S (oid self))
                    I (Nat.lt_succ_diag_r _) s1) as K1.
      rewrite Hi in K1. cbn [snd] in K1.
      apply stays_fresh_trans with (b := s2); [exact K1|].
      destruct (Eintrag_init_returns net _ _ _ _ _ Hi) as (p & t & _ & _ & -> & ->).
      apply stays_fresh_later with (n1 := S (objects s1));
        [cbn [registered objects]; lia|].
      apply (IH (mkEintrag (objects s1) (Str l) (Obj (oid self)) p t)).
    + pose proof (Eintrag_init_stays_fresh (Str l) (Obj (oid self)) (S (oid self))
                    I (Nat.lt_succ_diag_r _) s1) as K1.
      now rewrite Hi in K1.
Qed.

Lemma start_stays_fresh (u : pyval) (layers : Z) (n0 : nat) :
  seed_exists u n0 -> preserves (stays_fresh n0) (start net u layers).
Proof.
  intros Hu s.
  destruct (Eintrag_init net u u s) as [[seedE|x] s1] eqn:Hi.
  - rewrite (start_after_init net u layers s s1 seedE Hi).
    pose proof (Eintrag_init_stays_fresh u u n0 Hu Hu s) as K1.
    rewrite Hi in K1. cbn [snd] in K1.
    destruct (Eintrag_init_returns net _ _ _ _ _ Hi) as (p & t & _ & _ & -> & ->).
    pose proof (index_at_stays_fresh (Z.to_nat (layers + 1))
                  (mkEintrag (objects s) u u p t)
                  (snd (print ("Start at: " ++ t) (registered u u t s)))) as K2.
    unfold index. cbn [title].
    assert (K : stays_fresh n0 s (snd (index_at net (Z.to_nat (layers + 1))
                  (mkEintrag (objects s) u u p t)
                  (snd (print ("Start at: " ++ t) (registered u u t s)))))).
    { eapply stays_fresh_trans; [exact K1|].
      apply stays_fresh_later with (n1 := S (objects s)); [cbn; lia | exact K2]. }
    destruct (index_at _ _ _ _) as [[r|x] s2]; exact K.
  - unfold start. erewrite bind_raise_eq by exact Hi.
    pose proof (Eintrag_init_stays_fresh u u n0 Hu Hu s) as K1.
    now rewrite Hi in K1.
Qed.

Lemma getRandomURL_stays_fresh (n0 : nat) : preserves (stays_fresh n0) (getRandomURL net).
Proof.
  apply stays_fresh_untouched. intros s.
  unfold getRandomURL, bind, http_get, lift, find_title_text.
  destruct (fetch net (requests s) (Str random_page)) as [p|x]; [|now split].
  destruct (title_tag p); now split.
Qed.

Lemma resetGraph_stays_fresh (n0 : nat) : preserves (stays_fresh n0) resetGraph.
Proof.
  apply stays_fresh_untouched. intros s.
  unfold resetGraph, try_except, bind, os_remove_graph_xml.
  destruct (graph_xml s); now split.
Qed.

Lemma print_stays_fresh (n0 : nat) (line : string) :
  preserves (stays_fresh n0) (print line).
Proof. apply stays_fresh_untouched. now intros s. Qed.

Lemma append_stays_fresh (n0 : nat) (text : string) :
  preserves (stays_fresh n0) (append_testNodeIncrease text).
Proof. apply stays_fresh_untouched. now intros s. Qed.

Lemma expand_stays_fresh (i c : nat) : preserves (stays_fresh 0) (expand net i c).
Proof.
  intros s _ F. unfold expand. unfold bind at 1, get_graph at 1.
  assert (K : preserves (stays_fresh (objects s))
                (for_each (fun e => start net e 0) (endList (graph s)) [])).
  { apply preserves_for_each_In;
      [apply stays_fresh_refl | apply stays_fresh_trans |].
    intros e He. apply start_stays_fresh.
    unfold endList in He. apply filter_In in He. destruct He as [He _].
    destruct e as [x|j]; [exact I | exact (F j He)]. }
  assert (K' : preserves (stays_fresh (objects s))
                 (for_each (fun e => start net e 0) (endList (graph s)) [] ;;
                  g' <- get_graph ;;
                  print (record i c (DiGraph.number_of_nodes g')) ;;
                  append_testNodeIncrease (record i c (DiGraph.number_of_nodes g')))).
  { apply (preserves_bind _ (stays_fresh_trans _)); [exact K | intros _].
    apply (preserves_bind _ (stays_fresh_trans _));
      [apply stays_fresh_untouched; now intros s0 | intros g'].
    apply (preserves_bind _ (stays_fresh_trans _));
      [apply print_stays_fresh | intros _; apply append_stays_fresh]. }
  exact (K' s (Nat.le_refl _) F).
Qed.

Lemma run_stays_fresh (layers : Z) (i : nat) :
  preserves (stays_fresh 0) (run net layers i).
Proof.
  unfold run.
  apply (preserves_bind _ (stays_fresh_trans _));
    [apply getRandomURL_stays_fresh | intros u].
  apply (preserves_bind _ (stays_fresh_trans _));
    [now apply start_stays_fresh | intros t].
  apply (preserves_bind _ (stays_fresh_trans _));
    [apply stays_fresh_untouched; now intros s0 | intros g].
  apply (preserves_bind _ (stays_fresh_trans _)); [apply print_stays_fresh | intros _].
  apply (preserves_bind _ (stays_fresh_trans _)); [apply append_stays_fresh | intros _].
  apply (preserves_bind _ (stays_fresh_trans _));
    [|intros l s0; apply stays_fresh_refl].
  apply preserves_for_each; [apply stays_fresh_refl | apply stays_fresh_trans |].
  intros c. apply expand_stays_fresh.
Qed.

(** No operation of the crawler makes a node of an object that does not
    exist yet: when the object nodes of the graph are older than the
    object counter, they are so after a crawl from a URL or an existing
    object, after [createGraph] and after the growth test. *)
Lemma crawler_keeps_objects_fresh (u : pyval) (runs layers : Z) (s : state) :
  objects_fresh s -> seed_exists u (objects s) ->
  objects_fresh (snd (start net u layers s))
  /\ objects_fresh (snd (createGraph net layers s))
  /\ objects_fresh (snd (testNodeIncrease net runs layers s)).
Proof.
  intros F Hu. split; [|split].
  - now apply (start_stays_fresh u layers (objects s) Hu s (Nat.le_refl _) F).
  - assert (K : preserves (stays_fresh 0) (createGraph net layers)).
    { unfold createGraph.
      apply (preserves_try_except _ (stays_fresh_trans _)).
      - apply (preserves_bind _ (stays_fresh_trans _));
          [apply getRandomURL_stays_fresh | intros x].
        apply (preserves_bind _ (stays_fresh_trans _));
          [now apply start_stays_fresh | intros t; apply print_stays_fresh].
      - intros e. apply (preserves_bind _ (stays_fresh_trans _));
          [apply print_stays_fresh | intros _; apply print_stays_fresh]. }
    now apply (K s (Nat.le_0_l _) F).
  - assert (K : preserves (stays_fresh 0) (testNodeIncrease net runs layers)).
    { unfold testNodeIncrease.
      apply (preserves_bind _ (stays_fresh_trans _));
        [apply resetGraph_stays_fresh | intros _].
      apply (preserves_bind _ (stays_fresh_trans _));
        [|intros l s0; apply stays_fresh_refl].
      apply preserves_for_each; [apply stays_fresh_refl | apply stays_fresh_trans |].
      intros i. apply run_stays_fresh. }
    now apply (K s (Nat.le_0_l _) F).
Qed.

Lemma child_loop_grows (self : Eintrag) (links : list string) (acc : list tree) :
  preserves grows (for_each (child net 0 self) links acc).
Proof.
  apply keeps_for_each; [exact grows_preorders | intros l]. unfold child.
  apply keeps_bind; [exact grows_preorders | apply grows_Eintrag_init |].
  intros e. apply grows_index_at.
Qed.

(** X22.  A depth-0 crawl that returns a link adds a node, the seed's
    entry object, even when every URL it meets is in the graph already:
    the source of the new edges is the object, which no earlier crawl
    shares, so each such crawl leaves more nodes than it found. *)
Theorem start_depth0_adds_a_node (u : pyval) (s s' : state) (c : tree)
        (cs : list tree) :
  objects_fresh s ->
  start net u 0 s = (Ret (Leaves (c :: cs)), s') ->
  In (Obj (objects s)) (DiGraph.nodes (graph s'))
  /\ ~ In (Obj (objects s)) (DiGraph.nodes (graph s))
  /\ DiGraph.number_of_nodes (graph s) < DiGraph.number_of_nodes (graph s').
Proof.
  intros F H.
  assert (N : ~ In (Obj (objects s)) (DiGraph.nodes (graph s))).
  { intros Hin. specialize (F _ Hin). lia. }
  assert (G : extends (graph s) (graph s')).
  { pose proof (grows_start net u 0 s) as [K _]. now rewrite H in K. }
  assert (Hin : In (Obj (objects s)) (DiGraph.nodes (graph s'))).
  { unfold start in H.
    apply bind_ret_inv in H. destruct H as (seedE & s1 & Hi & H).
    apply bind_ret_inv in H. destruct H as ([] & s2 & Hp & H). injection Hp as <-.
    apply bind_ret_inv in H. destruct H as (r & s3 & Hx & H).
    apply bind_ret_inv in H. destruct H as ([] & s4 & Hp & H).
    injection Hp as <-. injection H as Hr <-. subst r.
    destruct (Eintrag_init_returns net _ _ _ _ _ Hi) as (p & t & _ & _ & -> & ->).
    unfold index in Hx. change (Z.to_nat (0 + 1)) with 1 in Hx. cbn [index_at] in Hx.
    apply bind_ret_inv in Hx. destruct Hx as (links & s2' & Hl & Hx).
    unfold lift in Hl. injection Hl as Hl <-.
    apply bind_ret_inv in Hx. destruct Hx as (leaves & s3' & Hloop & Hx).
    injection Hx as Hleaves <-. subst leaves.
    fold (child net 0 (mkEintrag (objects s) u u p t)) in Hloop.
    destruct links as [|l links].
    { simpl in Hloop. discriminate Hloop. }
    apply for_each_cons_ret in Hloop. destruct Hloop as (y & sa & Hy & Hrest).
    unfold child in Hy. apply bind_ret_inv in Hy.
    destruct Hy as (nextE & sb & Hn & Hy). simpl in Hy. injection Hy as _ <-.
    apply Eintrag_init_inv in Hn. destruct Hn as (_ & _ & Hg).
    assert (Hrest' : for_each (child net 0 (mkEintrag (objects s) u u p t)) links
                       ([] ++ [y]) sb = (Ret (c :: cs), s3')) by exact Hrest.
    pose proof (child_loop_grows (mkEintrag (objects s) u u p t) links
                  ([] ++ [y]) sb) as [[K _] _].
    rewrite Hrest' in K. cbn [snd print graph].
    apply (list_prefix_In _ _ _ K). rewrite Hg.
    apply DiGraphMore.add_edge_ends. }
  split; [exact Hin|]. split; [exact N|].
  destruct G as [[extra E] _]. unfold DiGraph.number_of_nodes.
  rewrite E, length_app. destruct extra as [|x extra]; [|simpl; lia].
  rewrite app_nil_r in E. rewrite E in Hin. now elim N.
Qed.

End Objects.

(** ** The further properties on the example sites *)

Lemma getLinks_no_duplicates_witness :
  NoDup [Examples.wiki "/wiki/A"; Examples.wiki "/wiki/B"].
Proof.
  exact (LinkFilterMore.getLinks_no_duplicates Cases.mixed
           [Examples.wiki "/wiki/A"; Examples.wiki "/wiki/B"] eq_refl).
Defined.

Lemma getLinks_only_article_links_witness :
  exists l, In l Cases.mixed /\ LinkFilterSpec.keep l = true
            /\ Examples.wiki "/wiki/B" = (LinkFilter.origin ++ l)%string.
Proof.
  exact (LinkFilterMore.getLinks_only_article_links Cases.mixed
           [Examples.wiki "/wiki/A"; Examples.wiki "/wiki/B"]
           (Examples.wiki "/wiki/B") eq_refl (or_intror (or_introl eq_refl))).
Defined.

Lemma getLinks_withholds_last_witness :
  exists r x,
    LinkFilter.getLinks Cases.mixed = Ret r
    /\ LinkFilterSpec.dedup
         (map (String.append LinkFilter.origin)
              (filter LinkFilterSpec.keep Cases.mixed))
       = r ++ [x]
    /\ ~ In x r.
Proof. exact (LinkFilterMore.getLinks_withholds_last Cases.mixed eq_refl). Defined.

Lemma getLinks_gives_up_at_short_path_witness :
  LinkFilter.getLinks (["/wiki/A"; "/wiki/B"] ++ "mailto:info@example.org" :: ["/wiki/C"])
  = Ret [].
Proof.
  exact (proj1 (getLinks_gives_up_at_short_path Examples.growth
                  ["/wiki/A"; "/wiki/B"] ["/wiki/C"] ["/wiki/A"; "/wiki/B"]
                  "mailto:info@example.org" eq_refl eq_refl
                  ltac:(discriminate) (or_introl eq_refl))).
Defined.

Lemma getTitle_drops_two_words_witness :
  getTitle (mkPage (Some ("Frankfurt am Main" ++ " " ++ "–" ++ " " ++ "Wikipedia")%string) [])
  = Ret "Frankfurt am Main".
Proof.
  exact (getTitle_drops_two_words "Frankfurt am Main" "–" "Wikipedia" [] eq_refl eq_refl).
Defined.

Lemma Eintrag_init_raises_witness :
  graph (failed_request Examples.fresh) = graph Examples.fresh.
Proof.
  exact (proj1 (proj2
    (Eintrag_init_raises Examples.broken (Str (Examples.wiki "/wiki/D")) (Obj 0)
       Examples.fresh (failed_request Examples.fresh)
       (RequestException "connection failed") eq_refl))).
Defined.

Lemma well_formed_empty : well_formed DiGraph.empty.
Proof. split; [constructor|]. split; [constructor|]. intros a b []. Qed.

Lemma crawler_keeps_graph_well_formed_witness :
  well_formed (graph (snd (testNodeIncrease Examples.growth 1 1 Examples.fresh))).
Proof.
  exact (proj2 (proj2
    (crawler_keeps_graph_well_formed Examples.growth (Str Examples.seed) 1 1
       Examples.fresh well_formed_empty))).
Defined.

Lemma start_negative_layers_witness :
  exists s',
    start Examples.growth (Str Examples.seed) (-1) Examples.fresh
    = (Ret (Leaf (mkEintrag 0 (Str Examples.seed) (Str Examples.seed)
                    (Examples.article "Seed" ["/wiki/A"; "/wiki/B"; "/wiki/C"])
                    "Seed")), s')
    /\ graph s' = DiGraph.add_edge (Str Examples.seed) (Str Examples.seed)
                     (DiGraph.add_node (Str Examples.seed) (graph Examples.fresh))
    /\ requests s' = 1.
Proof.
  exact (start_negative_layers Examples.growth (Str Examples.seed) (-1)
           Examples.fresh
           (Examples.article "Seed" ["/wiki/A"; "/wiki/B"; "/wiki/C"]) "Seed"
           eq_refl eq_refl eq_refl).
Defined.

Lemma start_depth0_shape_witness :
  exists t s',
    start Examples.growth (Str Examples.seed) 0 Examples.fresh = (Ret t, s')
    /\ exists p ti links children,
         fetch Examples.growth (requests Examples.fresh) (Str Examples.seed) = Ret p
         /\ getTitle p = Ret ti
         /\ LinkFilter.getLinks (hrefs p) = Ret links
         /\ built_for Examples.growth (S (requests Examples.fresh))
               (S (objects Examples.fresh)) (Obj (objects Examples.fresh))
               links children
         /\ t = Leaves (map Leaf children)
         /\ s' = mkState
                   (register_links (Obj (objects Examples.fresh)) links
                      (DiGraph.add_edge (Str Examples.seed) (Str Examples.seed)
                         (DiGraph.add_node (Str Examples.seed) (graph Examples.fresh))))
                   (requests Examples.fresh + 1 + length links)
                   (objects Examples.fresh + 1 + length links)
                   (console Examples.fresh
                    ++ [("Reached " ++ ti)%string; ("Start at: " ++ ti)%string]
                    ++ map (fun c => "Reached " ++ title c)%string children
                    ++ ["Finished"])
                   (graph_xml Examples.fresh) (testNodeIncrease_txt Examples.fresh).
Proof.
  eexists. eexists. split; [vm_compute; reflexivity|].
  apply (start_depth0_shape Examples.growth (Str Examples.seed) Examples.fresh).
  vm_compute. reflexivity.
Defined.

Lemma testNodeIncrease_propagates_witness :
  exists s1,
    testNodeIncrease Cases.talk_only 1 1 Examples.visited
    = (Raise (IndexError "pop from empty list"), s1)
    /\ testNodeIncrease_txt s1 = testNodeIncrease_txt Examples.visited.
Proof.
  eexists.
  apply (testNodeIncrease_propagates Cases.talk_only 1 1 Examples.visited);
    [reflexivity | vm_compute; reflexivity].
Defined.

Lemma testNodeIncrease_no_runs_witness :
  testNodeIncrease Examples.growth (-2) 3 Examples.visited
  = (Ret tt, snd (resetGraph Examples.visited)).
Proof.
  apply (testNodeIncrease_no_runs Examples.growth (-2) 3 Examples.visited).
  discriminate.
Defined.

Lemma seed_is_no_dead_end_witness :
  2 <= DiGraph.degree (Str Examples.seed)
         (graph (registered (Str Examples.seed) (Str Examples.seed) "Seed"
                   Examples.fresh))
  /\ ~ In (Str Examples.seed)
         (endList (graph (registered (Str Examples.seed) (Str Examples.seed) "Seed"
                            Examples.fresh))).
Proof.
  apply (seed_is_no_dead_end Examples.growth (Str Examples.seed) Examples.fresh
           (registered (Str Examples.seed) (Str Examples.seed) "Seed" Examples.fresh)
           (mkEintrag 0 (Str Examples.seed) (Str Examples.seed)
              (Examples.article "Seed" ["/wiki/A"; "/wiki/B"; "/wiki/C"]) "Seed"));
    [reflexivity | apply extends_refl].
Defined.

Lemma crawl_edges_follow_links_witness :
  In (Obj 1, Str Examples.seed) (DiGraph.edges (graph Examples.fresh))
  \/ (Obj 1, Str Examples.seed) = (Str Examples.seed, Str Examples.seed)
  \/ exists self sd,
       crawl_entry Examples.growth (Str Examples.seed) 1 Examples.fresh self sd
       /\ oid self = objects sd
       /\ fetch Examples.growth (requests sd) (url self) = Ret (html self)
       /\ link_edge self (Obj 1, Str Examples.seed).
Proof.
  apply (crawl_edges_follow_links Examples.growth (Str Examples.seed) 1 Examples.fresh).
  vm_compute. right. right. left. reflexivity.
Defined.

Lemma growth_log_records_witness :
  exists rs,
    length rs = Z.to_nat 2
    /\ Forall (fun r => length (snd r) = Z.to_nat 2) rs
    /\ testNodeIncrease_txt (snd (testNodeIncrease Cases.uniform 2 2 Examples.fresh))
       = (testNodeIncrease_txt Examples.fresh ++ test_records 0 rs)%string
    /\ ascending (DiGraph.number_of_nodes (graph Examples.fresh))
                 (concat (map counts_of rs)).
Proof.
  apply (growth_log_records Cases.uniform 2 2 Examples.fresh).
  vm_compute. reflexivity.
Defined.

Lemma getRandomURL_of_title_witness :
  fst (getRandomURL Examples.growth Examples.fresh)
  = Ret ("http://de.wikipedia.org/wiki/" ++ quote Examples.growth "Seed")%string.
Proof.
  exact (getRandomURL_of_title Examples.growth Examples.fresh
           (Examples.article "Seed" []) "Seed" eq_refl eq_refl eq_refl).
Defined.

Lemma start_depth0_returns_witness :
  exists r s', start Examples.growth (Str Examples.seed) 0 Examples.fresh = (Ret r, s').
Proof.
  apply (start_depth0_returns Examples.growth (Str Examples.seed) Examples.fresh
           (Examples.article "Seed" ["/wiki/A"; "/wiki/B"; "/wiki/C"]) "Seed"
           [Examples.wiki "/wiki/A"; Examples.wiki "/wiki/B"]);
    [reflexivity | reflexivity | reflexivity |].
  intros k l [<-|[<-|[]]]; eexists; eexists; split; reflexivity.
Defined.

Lemma start_depth0_adds_a_node_witness :
  In (Obj (objects Examples.fresh))
     (DiGraph.nodes (graph (snd (start Examples.growth (Str Examples.seed) 0
                                   Examples.fresh))))
  /\ ~ In (Obj (objects Examples.fresh)) (DiGraph.nodes (graph Examples.fresh))
  /\ DiGraph.number_of_nodes (graph Examples.fresh)
     < DiGraph.number_of_nodes
         (graph (snd (start Examples.growth (Str Examples.seed) 0 Examples.fresh))).
Proof.
  eapply (start_depth0_adds_a_node Examples.growth (Str Examples.seed) Examples.fresh);
    [intros i [] | vm_compute; reflexivity].
Defined.
